(** * merge-and-update-css-bundle: the merge plugin of [src/index.ts]

    A shallow embedding of [mergeCssPlugin]: the fragment scanner
    ([getAllFiles]), the change detector ([calculateHash] and the test in
    [onSuccess]), the batched merge, and the symlink-swap publisher
    ([atomicStyleUpdate]) over a small model of the file system.

    Conventions of the model.
    - Paths are absolute, normalised strings; a symbolic link stores an
      absolute target.  Path resolution follows links on the last component
      only, and a file can be created whether or not the tree has a node
      for its directory.  A theorem that concludes that a file or a link was
      created or written assumes the directory ([housed]); a theorem about
      the strings of the plugin's paths assumes arguments in normal form
      ([normal_path]).
    - A directory lists the names that [readdir] shows to the scanner.  The
      names the plugin creates itself are not added to it: the scanner skips
      them in any case (excluded paths, links, names that do not end in
      [.module.css]).
    - A file-system call fails only for a reason visible in the tree (missing
      node, wrong kind of node, too many links).  Permissions, quotas and
      device errors are outside the model.
    - [fs.promises.writeFile] is not atomic: it truncates, then fills.  Both
      steps are recorded, so that the states a concurrent reader can see are
      the replays of the prefixes of the trace.
    - Console output is not part of the state.  [verbose] is a parameter only
      where the source branches on it around something else than a
      [console.log]. *)

From stdpp Require Import gmap strings list.
From Stdlib Require Import Ascii String.
Abbreviation length := List.length.

Local Open Scope string_scope.
Local Open Scope list_scope.

(** ** Paths ([node:path]) *)

Module Path.

Definition join (dir name : string) : string := dir +:+ "/" +:+ name.

Fixpoint dirname_go (rchars : list ascii) : option (list ascii) :=
  match rchars with
  | [] => None
  | c :: r => if Ascii.eqb c "/" then Some r else dirname_go r
  end.

Definition dirname (p : string) : string :=
  match dirname_go (rev (list_ascii_of_string p)) with
  | None => "."
  | Some [] => "/"
  | Some r => string_of_list_ascii (rev r)
  end.

(** [path.resolve] of a path that is already absolute and normalised. *)
Definition resolve (p : string) : string := p.

(** [/suffix$/.test(name)] *)
Definition ends_with (suffix name : string) : bool :=
  String.prefix (String.rev suffix) (String.rev name).

End Path.

(** ** The file system *)

Inductive node :=
| File (content : string)
| Symlink (target : string)
| Dir (entries : list string).

Inductive errno :=
| ENOENT | EINVAL | EEXIST | EISDIR | ENOTDIR | ELOOP | ENAMETOOLONG
| CssSyntaxError.

Inductive result (A : Type) :=
| Ok (a : A)
| Throw (e : errno).
Arguments Ok {A} a.
Arguments Throw {A} e.

(** One record per mutation that took place. *)
Inductive event :=
| EvCreate (p : string)
| EvMkdir (p : string)
| EvTruncate (p : string)
| EvWritten (p : string) (content : string)
| EvUnlink (p : string)
| EvSymlink (target p : string).

Definition apply_event (ev : event) (fs : gmap string node) : gmap string node :=
  match ev with
  | EvCreate p => <[p := File ""]> fs
  | EvMkdir p => <[p := Dir []]> fs
  | EvTruncate p => <[p := File ""]> fs
  | EvWritten p c => <[p := File c]> fs
  | EvUnlink p => delete p fs
  | EvSymlink t p => <[p := Symlink t]> fs
  end.

Definition replay (evs : list event) (fs : gmap string node) : gmap string node :=
  foldl (fun acc ev => apply_event ev acc) fs evs.

Module Fs.

(** The kernel follows at most 40 links. *)
Definition MAXSYMLINKS : nat := 40.

Fixpoint realpath_go (fs : gmap string node) (n : nat) (p : string) : result string :=
  match fs !! p with
  | Some (Symlink t) =>
      match n with
      | O => Throw ELOOP
      | S n' => realpath_go fs n' t
      end
  | _ => Ok p
  end.

(** The path a call that follows links ends at; the node there may be
    missing. *)
Definition realpath (fs : gmap string node) (p : string) : result string :=
  realpath_go fs MAXSYMLINKS p.

Definition readlink (fs : gmap string node) (p : string) : result string :=
  match fs !! p with
  | Some (Symlink t) => Ok t
  | Some _ => Throw EINVAL
  | None => Throw ENOENT
  end.

Definition existsSync (fs : gmap string node) (p : string) : bool :=
  match realpath fs p with
  | Ok q => bool_decide (is_Some (fs !! q))
  | Throw _ => false
  end.

Definition readFile (fs : gmap string node) (p : string) : result string :=
  match realpath fs p with
  | Ok q =>
      match fs !! q with
      | Some (File c) => Ok c
      | Some _ => Throw EISDIR
      | None => Throw ENOENT
      end
  | Throw e => Throw e
  end.

(** [readdir(dir, { withFileTypes: true })]: the names, in directory
    order.  The kind of an entry is the kind of the node at
    [Path.join dir name], links not followed. *)
Definition readdir (fs : gmap string node) (dir : string) : result (list string) :=
  match fs !! dir with
  | Some (Dir names) => Ok names
  | Some _ => Throw ENOTDIR
  | None => Throw ENOENT
  end.

(** [open(p, 'a+')]: nothing happens to a file that exists, a missing one
    is created empty. *)
Definition open_append (fs : gmap string node) (p : string) : result (list event) :=
  match realpath fs p with
  | Ok q =>
      match fs !! q with
      | Some (Dir _) => Throw EISDIR
      | Some _ => Ok []
      | None => Ok [EvCreate q]
      end
  | Throw e => Throw e
  end.

(** [mkdir(p, { recursive: true })] *)
Definition mkdir_p (fs : gmap string node) (p : string) : result (list event) :=
  match fs !! p with
  | None => Ok [EvMkdir p]
  | Some (Dir _) => Ok []
  | Some (File _) => Throw EEXIST
  | Some (Symlink _) =>
      match realpath fs p with
      | Ok q => match fs !! q with Some (Dir _) => Ok [] | _ => Throw EEXIST end
      | Throw e => Throw e
      end
  end.

Definition unlink (fs : gmap string node) (p : string) : result (list event) :=
  match fs !! p with
  | Some (Dir _) => Throw EISDIR
  | Some _ => Ok [EvUnlink p]
  | None => Throw ENOENT
  end.

Definition symlink (fs : gmap string node) (target p : string) : result (list event) :=
  match fs !! p with
  | None => Ok [EvSymlink target p]
  | Some _ => Throw EEXIST
  end.

Definition writeFile (fs : gmap string node) (p content : string) : result (list event) :=
  match realpath fs p with
  | Ok q =>
      match fs !! q with
      | Some (Dir _) => Throw EISDIR
      | _ => Ok [EvTruncate q; EvWritten q content]
      end
  | Throw e => Throw e
  end.

End Fs.

(** ** The plugin's world: the tree, what was done to it, and the closure
    variables of [mergeCssPlugin] *)

Record state := mkState {
  fs : gmap string node;
  trace : list event;
  lastKnownFiles : gset string;
  lastKnownHash : string;
  tempFileHandle : bool;
  backupFileHandle : bool
}.

Definition perform (evs : list event) (s : state) : state :=
  mkState (replay evs (fs s)) (trace s ++ evs)
          (lastKnownFiles s) (lastKnownHash s)
          (tempFileHandle s) (backupFileHandle s).

Definition set_handles (t b : bool) (s : state) : state :=
  mkState (fs s) (trace s) (lastKnownFiles s) (lastKnownHash s) t b.

Definition set_lastKnown (files : gset string) (hash : string) (s : state) : state :=
  mkState (fs s) (trace s) files hash (tempFileHandle s) (backupFileHandle s).

(** An asynchronous function: it runs on the state and returns or throws. *)
Definition M (A : Type) : Type := state -> result A * state.

Definition ret {A} (a : A) : M A := fun s => (Ok a, s).

Global Instance M_ret : MRet M := @ret.
Global Instance M_bind : MBind M := fun A B f m s =>
  match m s with
  | (Ok a, s') => f a s'
  | (Throw e, s') => (Throw e, s')
  end.

Definition throw {A} (e : errno) : M A := fun s => (Throw e, s).

(** [try { m } catch (e) { h e }] *)
Definition try_catch {A} (m : M A) (h : errno -> M A) : M A := fun s =>
  match m s with
  | (Ok a, s') => (Ok a, s')
  | (Throw e, s') => h e s'
  end.

(** A call that only looks at the tree. *)
Definition inspect {A} (f : gmap string node -> result A) : M A := fun s =>
  (f (fs s), s).

(** A call that changes the tree. *)
Definition mutate (f : gmap string node -> result (list event)) : M unit := fun s =>
  match f (fs s) with
  | Ok evs => (Ok tt, perform evs s)
  | Throw e => (Throw e, s)
  end.

Definition gets {A} (f : state -> A) : M A := fun s => (Ok (f s), s).
Definition modify (f : state -> state) : M unit := fun s => (Ok tt, f s).

(** ** Helpers at the top of [index.ts] *)

(** [/\.module\.css$/] *)
Definition module_css (name : string) : bool := Path.ends_with ".module.css" name.

(** No path is longer than [PATH_MAX] bytes, which bounds the depth of a
    directory. *)
Definition PATH_DEPTH : nat := 2048.

(** The [for (const entry of entries)] loop of [getAllFiles]; [scanDir] is
    the recursive call. *)
Fixpoint scan_entries (scanDir : string -> result (list string))
    (fs : gmap string node) (dir : string) (pattern : string -> bool)
    (exclude : list string) (entries files : list string) : result (list string) :=
  match entries with
  | [] => Ok files
  | name :: rest =>
      let fullPath := Path.join dir name in
      if bool_decide (fullPath ∈ exclude)
      then scan_entries scanDir fs dir pattern exclude rest files
      else
        match fs !! fullPath with
        | Some (Dir _) =>
            if bool_decide (name = "node_modules")
            then scan_entries scanDir fs dir pattern exclude rest files
            else
              match scanDir fullPath with
              | Ok subDirFiles =>
                  scan_entries scanDir fs dir pattern exclude rest (files ++ subDirFiles)
              | Throw e => Throw e
              end
        | Some (File _) =>
            if pattern name
            then scan_entries scanDir fs dir pattern exclude rest (files ++ [fullPath])
            else scan_entries scanDir fs dir pattern exclude rest files
        | _ => scan_entries scanDir fs dir pattern exclude rest files
        end
  end.

(** [getAllFiles(dir, pattern, exclude)].  The fourth argument of the source,
    [verbose], only selects what is logged. *)
Fixpoint getAllFiles (depth : nat) (fs : gmap string node) (dir : string)
    (pattern : string -> bool) (exclude : list string) : result (list string) :=
  match depth with
  | O => Throw ENAMETOOLONG
  | S depth' =>
      match Fs.readdir fs dir with
      | Throw e => Throw e
      | Ok entries =>
          scan_entries (fun subDir => getAllFiles depth' fs subDir pattern exclude)
                       fs dir pattern exclude entries []
      end
  end.

Definition batchSize : nat := 5.

(** [xs.slice(i, j)] for [i <= j] *)
Definition slice {A} (i j : nat) (xs : list A) : list A := take (j - i) (drop i xs).

(** [for (let i = 0; i < files.length; i += batchSize) { body(files.slice(i, i + batchSize)) }],
    threading what the body accumulates.  The loop runs at most
    [files.length] times, so that many rounds are enough. *)
Fixpoint for_batches {A} (rounds i : nat) (files : list string)
    (body : list string -> A -> M A) (acc : A) : M A :=
  match rounds with
  | O => ret acc
  | S rounds' =>
      if bool_decide (i < length files) then
        acc' ← body (slice i (i + batchSize) files) acc;
        for_batches rounds' (i + batchSize) files body acc'
      else ret acc
  end.

(** [String.prototype.trim] removes these bytes from both ends (the
    non-ASCII white space of ECMAScript is left out). *)
Definition js_space (c : ascii) : bool :=
  let n := nat_of_ascii c in
  bool_decide (n = 9 ∨ n = 10 ∨ n = 11 ∨ n = 12 ∨ n = 13 ∨ n = 32).

(** [!s.trim()] *)
Definition blank (s : string) : bool := forallb js_space (list_ascii_of_string s).

Definition newline : string := String (ascii_of_nat 10) "".

(** [contents.join('\n')] *)
Definition join_lines (contents : list string) : string := String.concat newline contents.

Section Hashing.

(** [crypto.createHash('sha256')], fed in pieces, then [digest('hex')]:
    the digest of the concatenation of the pieces. *)
Variable sha256 : string -> string.

Definition calculateFileHash (filePath : string) : M string :=
  data ← inspect (fun fs => Fs.readFile fs filePath);
  ret (sha256 data).

Definition calculateHash (files : list string) : M string :=
  fed ← for_batches (length files) 0 files
        (fun batch fed =>
           hashes ← mapM calculateFileHash batch;
           ret (foldl String.append fed hashes))
        "";
  ret (sha256 fed).

End Hashing.

(** ** [mergeCssPlugin] *)

Record MergeCssPluginOptions := mkOptions {
  opt_extensions : option (list string);
  opt_deduplicate : option bool;
  opt_verbose : option bool
}.

(** What [onSuccess] reports on the console when it ends; the source
    returns nothing. *)
Inductive report :=
| Updated                  (* "Updated styles successfully" *)
| NotApplied               (* the publication returned false *)
| NoChanges                (* "No changes detected in module files, ..." *)
| PreservedExisting        (* "No module files found, preserving existing styles" *)
| NothingToPreserve        (* "No module files found and no existing styles to preserve" *)
| Failed (e : errno).      (* "Error during processing" *)

Section Plugin.

Variable sha256 : string -> string.

(** [postcss([postcssDiscardDuplicates]).process(css, ...)]: the text
    without its duplicate rules, or a syntax error. *)
Variable postcssDiscardDuplicates : string -> result string.

Variables outputFile outputDir : string.
Variable options : MergeCssPluginOptions.

(** [const { verbose = true } = options] *)
Definition verbose : bool := default true (opt_verbose options).

Definition absoluteOutputDir : string := Path.resolve outputDir.
Definition absoluteOutputFile : string := Path.resolve outputFile.
Definition tempFile : string :=
  Path.join (Path.dirname absoluteOutputFile) "styles.temp.css".
Definition backupFile : string :=
  Path.join (Path.dirname absoluteOutputFile) "styles.backup.css".
Definition mainStylesLink : string := Path.join absoluteOutputDir "styles.css".
Definition shadowLink : string :=
  Path.join (Path.dirname mainStylesLink) ".styles.shadow.css".

Definition cleanup : M unit :=
  modify (set_handles false false).

(** The last block of the source, under [if (verbose)], reads the two
    links again to log them and has no other effect. *)
Definition setupInitialFiles : M unit :=
  try_catch
    (tempOpen ← gets tempFileHandle;
     (if (tempOpen : bool) then ret tt
      else mutate (fun fs => Fs.open_append fs tempFile);;
           modify (fun s => set_handles true (backupFileHandle s) s));;
     backupOpen ← gets backupFileHandle;
     (if (backupOpen : bool) then ret tt
      else mutate (fun fs => Fs.open_append fs backupFile);;
           modify (fun s => set_handles (tempFileHandle s) true s));;
     mutate (fun fs => Fs.mkdir_p fs (Path.dirname mainStylesLink));;
     mutate (fun fs => Fs.mkdir_p fs (Path.dirname shadowLink));;
     try_catch
       (shadowTarget ← inspect (fun fs => Fs.readlink fs shadowLink);
        shadowTargetExists ← inspect (fun fs => Ok (Fs.existsSync fs shadowTarget));
        if (shadowTargetExists : bool) then ret tt
        else mutate (fun fs => Fs.unlink fs shadowLink))
       (fun _ => ret tt);;
     try_catch
       (mainTarget ← inspect (fun fs => Fs.readlink fs mainStylesLink);
        mainTargetExists ← inspect (fun fs => Ok (Fs.existsSync fs mainTarget));
        if (mainTargetExists : bool) then ret tt
        else mutate (fun fs => Fs.unlink fs mainStylesLink))
       (fun _ => ret tt);;
     shadowExists ← inspect (fun fs => Ok (Fs.existsSync fs shadowLink));
     (if (shadowExists : bool) then ret tt
      else mutate (fun fs => Fs.symlink fs backupFile shadowLink));;
     mainExists ← inspect (fun fs => Ok (Fs.existsSync fs mainStylesLink));
     (if (mainExists : bool) then ret tt
      else mutate (fun fs => Fs.symlink fs shadowLink mainStylesLink)))
    (fun error => cleanup;; throw error).

Definition atomicStyleUpdate (newContent : string) (forceUpdate : bool) : M bool :=
  try_catch
    (if blank newContent && negb forceUpdate then ret false
     else
       try_catch
         (currentTarget ← inspect (fun fs => Fs.readlink fs shadowLink);
          ret (Some currentTarget))
         (fun _ =>
            mutate (fun fs => Fs.writeFile fs backupFile newContent);;
            mutate (fun fs => Fs.symlink fs backupFile shadowLink);;
            mutate (fun fs => Fs.symlink fs shadowLink mainStylesLink);;
            ret None)
       ≫= fun readTarget =>
       match readTarget with
       | None => ret true
       | Some currentTarget =>
           let isUsingBackup := bool_decide (currentTarget = backupFile) in
           let activeFile := if isUsingBackup then tempFile else backupFile in
           let inactiveFile := if isUsingBackup then backupFile else tempFile in
           mutate (fun fs => Fs.writeFile fs activeFile newContent);;
           try_catch
             (mutate (fun fs => Fs.unlink fs shadowLink);;
              mutate (fun fs => Fs.symlink fs activeFile shadowLink);;
              mutate (fun fs => Fs.writeFile fs inactiveFile newContent);;
              ret true)
             (fun error =>
                try_catch
                  (mutate (fun fs => Fs.unlink fs shadowLink);;
                   mutate (fun fs => Fs.symlink fs currentTarget shadowLink))
                  (fun _ => ret tt);;
                throw error)
       end)
    (fun _ => ret false).

(** The test of [onSuccess] that decides whether the fragments are merged
    again. *)
Definition hasChanged (moduleFiles : list string) (currentHash : string)
    (lastFiles : gset string) (lastHash : string) : bool :=
  negb (String.eqb currentHash lastHash)
  || negb (Nat.eqb (length moduleFiles) (size lastFiles))
  || negb (forallb (fun file => bool_decide (file ∈ lastFiles)) moduleFiles).

(** The loop of [onSuccess] that builds [combinedContent]. *)
Definition combineContents (moduleFiles : list string) : M string :=
  for_batches (length moduleFiles) 0 moduleFiles
    (fun batch combinedContent =>
       contents ← mapM (fun file => inspect (fun fs => Fs.readFile fs file)) batch;
       ret (combinedContent +:+ join_lines contents))
    "".

Definition onSuccess : M report :=
  try_catch
    (setupInitialFiles;;
     moduleFiles ← inspect (fun fs =>
       getAllFiles PATH_DEPTH fs outputDir module_css
                   [absoluteOutputFile; tempFile; backupFile]);
     currentContent ← try_catch
       (currentTarget ← inspect (fun fs => Fs.readlink fs shadowLink);
        inspect (fun fs => Fs.readFile fs currentTarget))
       (fun _ => ret "");
     if bool_decide (0 < length moduleFiles) then
       currentHash ← calculateHash sha256 moduleFiles;
       lastFiles ← gets lastKnownFiles;
       lastHash ← gets lastKnownHash;
       if hasChanged moduleFiles currentHash lastFiles lastHash then
         combinedContent ← combineContents moduleFiles;
         css ← (fun s => (postcssDiscardDuplicates combinedContent, s));
         success ← atomicStyleUpdate css false;
         if (success : bool) then
           modify (set_lastKnown (list_to_set moduleFiles) currentHash);;
           ret Updated
         else ret NotApplied
       else if verbose then
         (if negb (blank currentContent)
          then atomicStyleUpdate currentContent false;; ret tt
          else ret tt);;
         ret NoChanges
       else ret NoChanges
     else if negb (blank currentContent) then
       atomicStyleUpdate currentContent false;;
       ret PreservedExisting
     else
       atomicStyleUpdate "" false;;
       ret NothingToPreserve)
    (fun error => ret (Failed error)).

Definition onClear : M unit :=
  try_catch
    (atomicStyleUpdate "" true;; ret tt)
    (fun _ => ret tt).

Definition dispose : M unit := cleanup.

End Plugin.

(** ** Specification vocabulary *)

(** What [Promise.all(batch.map(read))] resolves to: the contents in order,
    or the first failure. *)
Fixpoint read_all (fs : gmap string node) (files : list string) : result (list string) :=
  match files with
  | [] => Ok []
  | file :: rest =>
      match Fs.readFile fs file with
      | Throw e => Throw e
      | Ok c =>
          match read_all fs rest with
          | Throw e => Throw e
          | Ok cs => Ok (c :: cs)
          end
      end
  end.

(** How a reader gets the artifact (the helper [getStylesContent] of the
    tests, without its catch-all): the target of the main link, then the
    file there. *)
Definition published (mainStylesLink : string) (fs : gmap string node) : result string :=
  match Fs.readlink fs mainStylesLink with
  | Ok linkTarget => Fs.readFile fs linkTarget
  | Throw e => Throw e
  end.

(** The closure variables of a plugin that has just been created. *)
Definition initial_state (fs : gmap string node) : state :=
  mkState fs [] ∅ "" false false.

(** A toy digest and a collaborator that returns its input, for running
    the plugin on examples. *)
Definition sample_sha256 (data : string) : string := "<" +:+ data +:+ ">".
Definition sample_postcss (css : string) : result string := Ok css.

(** A collaborator that leaves a mark, to see whether it ran. *)
Definition marking_postcss (css : string) : result string := Ok ("/*deduplicated*/" +:+ css).

Definition default_options : MergeCssPluginOptions := mkOptions None None None.
Definition quiet_options : MergeCssPluginOptions := mkOptions None None (Some false).

(** A build directory [/out] with two fragments, one of them in a
    subdirectory, and one under [node_modules]. *)
Definition sample_tree : gmap string node :=
  list_to_map
    [("/out", Dir ["a.module.css"; "sub"; "node_modules"; "readme.md"]);
     ("/out/a.module.css", File ".a{}");
     ("/out/sub", Dir ["b.module.css"]);
     ("/out/sub/b.module.css", File ".b{}");
     ("/out/node_modules", Dir ["c.module.css"]);
     ("/out/node_modules/c.module.css", File ".c{}");
     ("/out/readme.md", File "hi")].

(** A build directory with six fragments. *)
Definition six_tree : gmap string node :=
  list_to_map
    [("/out", Dir ["1.module.css"; "2.module.css"; "3.module.css";
                   "4.module.css"; "5.module.css"; "6.module.css"]);
     ("/out/1.module.css", File "a");
     ("/out/2.module.css", File "b");
     ("/out/3.module.css", File "c");
     ("/out/4.module.css", File "d");
     ("/out/5.module.css", File "e");
     ("/out/6.module.css", File "f")].

Definition six_files : list string :=
  ["/out/1.module.css"; "/out/2.module.css"; "/out/3.module.css";
   "/out/4.module.css"; "/out/5.module.css"; "/out/6.module.css"].


(** ** Shapes of the publication state *)

Definition is_file (o : option node) : bool :=
  match o with Some (File _) => true | _ => false end.

Definition is_dir (o : option node) : bool :=
  match o with Some (Dir _) => true | _ => false end.

(** A regular file, or nothing yet. *)
Definition plain (o : option node) : bool :=
  match o with None | Some (File _) => true | _ => false end.

Section Shapes.

Variables outputFile outputDir : string.

(** Neither buffer path is taken by a link or a directory. *)
Definition buffers_plain (fs : gmap string node) : bool :=
  plain (fs !! tempFile outputFile) && plain (fs !! backupFile outputFile).

(** The main link, when there, points at the shadow link; the shadow link,
    when there, points at a regular file. *)
Definition links_ok (fs : gmap string node) : bool :=
  match fs !! mainStylesLink outputDir with
  | None => true
  | Some (Symlink target) => bool_decide (target = shadowLink outputDir)
  | Some _ => false
  end
  && match fs !! shadowLink outputDir with
     | None => true
     | Some (Symlink target) => is_file (fs !! target)
     | Some _ => false
     end.

(** The directory that is scanned and the directories of the two links are
    there. *)
Definition dirs_exist (fs : gmap string node) : bool :=
  is_dir (fs !! outputDir)
  && is_dir (fs !! Path.dirname (mainStylesLink outputDir))
  && is_dir (fs !! Path.dirname (shadowLink outputDir)).

(** A handle that is held belongs to a file that is still there. *)
Definition handles_ok (s : state) : bool :=
  implb (tempFileHandle s) (is_file (fs s !! tempFile outputFile))
  && implb (backupFileHandle s) (is_file (fs s !! backupFile outputFile)).

(** What the plugin finds in a directory that only it writes to, before or
    after its first call. *)
Definition sane (s : state) : bool :=
  buffers_plain (fs s) && links_ok (fs s) && dirs_exist (fs s) && handles_ok s.

(** "Ready": both buffers exist and the chain main link, shadow link,
    regular file is in place. *)
Definition ready (fs : gmap string node) : bool :=
  is_file (fs !! tempFile outputFile) && is_file (fs !! backupFile outputFile)
  && dirs_exist fs
  && match fs !! mainStylesLink outputDir with
     | Some (Symlink target) => bool_decide (target = shadowLink outputDir)
     | _ => false
     end
  && match fs !! shadowLink outputDir with
     | Some (Symlink target) => is_file (fs !! target)
     | _ => false
     end.

(** What [setupInitialFiles] does to such a tree. *)
Definition setup_events (fs : gmap string node) : list event :=
  (if is_file (fs !! tempFile outputFile) then [] else [EvCreate (tempFile outputFile)])
  ++ (if is_file (fs !! backupFile outputFile) then [] else [EvCreate (backupFile outputFile)])
  ++ match fs !! shadowLink outputDir with
     | None =>
         match fs !! mainStylesLink outputDir with
         | Some _ => [EvUnlink (mainStylesLink outputDir)]
         | None => []
         end
         ++ [EvSymlink (backupFile outputFile) (shadowLink outputDir);
             EvSymlink (shadowLink outputDir) (mainStylesLink outputDir)]
     | Some _ =>
         match fs !! mainStylesLink outputDir with
         | None => [EvSymlink (shadowLink outputDir) (mainStylesLink outputDir)]
         | Some _ => []
         end
     end.

(** The swap of [atomicStyleUpdate] when the shadow link points at
    [target]. *)
Definition swap_events (target content : string) : list event :=
  let activeFile :=
    if bool_decide (target = backupFile outputFile)
    then tempFile outputFile else backupFile outputFile in
  let inactiveFile :=
    if bool_decide (target = backupFile outputFile)
    then backupFile outputFile else tempFile outputFile in
  [EvTruncate activeFile; EvWritten activeFile content;
   EvUnlink (shadowLink outputDir); EvSymlink activeFile (shadowLink outputDir);
   EvTruncate inactiveFile; EvWritten inactiveFile content].

(** The first publication, when no link can be read at the path of the
    shadow link: the two links are created as far as their paths are free. *)
Definition first_events (fs : gmap string node) (content : string) : list event :=
  [EvTruncate (backupFile outputFile); EvWritten (backupFile outputFile) content]
  ++ match fs !! shadowLink outputDir with
     | None =>
         EvSymlink (backupFile outputFile) (shadowLink outputDir)
         :: match fs !! mainStylesLink outputDir with
            | None => [EvSymlink (shadowLink outputDir) (mainStylesLink outputDir)]
            | Some _ => []
            end
     | Some _ => []
     end.

(** The main link, when there, points at the shadow link; the shadow link,
    when it is a link, points at something that is not a link. *)
Definition one_hop (fs : gmap string node) : bool :=
  match fs !! mainStylesLink outputDir with
  | None => true
  | Some (Symlink target) => bool_decide (target = shadowLink outputDir)
  | Some _ => false
  end
  && match fs !! shadowLink outputDir with
     | Some (Symlink target) => plain (fs !! target)
     | _ => true
     end.

(** Where the shadow link points; [setupInitialFiles] points it at the
    backup buffer when it is missing. *)
Definition current_target (fs : gmap string node) : string :=
  match fs !! shadowLink outputDir with
  | Some (Symlink target) => target
  | _ => backupFile outputFile
  end.

Definition content_at (fs : gmap string node) (p : string) : string :=
  match fs !! p with
  | Some (File content) => content
  | _ => ""
  end.

(** The publication states in which [onClear] can act: the buffers are
    free or regular files; the shadow link is a link or missing; the main
    link points at the shadow link, or is missing along with it. *)
Definition clearable (fs : gmap string node) : bool :=
  buffers_plain fs
  && match fs !! shadowLink outputDir, fs !! mainStylesLink outputDir with
     | Some (Symlink _), Some (Symlink target) => bool_decide (target = shadowLink outputDir)
     | None, Some (Symlink target) => bool_decide (target = shadowLink outputDir)
     | None, None => true
     | _, _ => false
     end.

End Shapes.

(** The mutations a call added to the trace. *)
Definition new_events (before after : state) : list event :=
  drop (length (trace before)) (trace after).


(** What the scanner can tell apart: a regular file or a directory, and the
    rest (a link, nothing). *)
Definition solid (o : option node) : bool := is_file o || is_dir o.

(** The second tree differs from the first at most at the exempt paths,
    and where the first has neither a regular file nor a directory (there
    the second has neither as well). *)
Definition frame (exempt : list string) (fs fs' : gmap string node) : Prop :=
  forall p : string,
    p ∈ exempt \/ (if solid (fs !! p) then fs' !! p = fs !! p else solid (fs' !! p) = false).

(** What the merge loop makes of the contents it read: each batch joined
    with newlines, the batches put end to end. *)
Fixpoint join_batches (rounds : nat) (contents : list string) : string :=
  match rounds with
  | O => ""
  | S rounds' =>
      match contents with
      | [] => ""
      | _ => join_lines (take batchSize contents)
             +:+ join_batches rounds' (drop batchSize contents)
      end
  end.

Definition detector (s : state) : gset string * string :=
  (lastKnownFiles s, lastKnownHash s).


(** What the scanner returns: regular files, none of them excluded. *)
Definition scanned (fs : gmap string node) (exclude : list string) (file : string) : Prop :=
  is_file (fs !! file) = true /\ file ∉ exclude.


(** A step that leaves the remembered state of the change detector alone. *)
Definition keeps {A} (m : M A) : Prop :=
  forall s : state, detector (snd (m s)) = detector s.


(** The sample plugin: output file [/out/merged.css], scanned directory
    [/out]. *)
Definition sample_refresh (options : MergeCssPluginOptions) : M report :=
  onSuccess sample_sha256 sample_postcss "/out/merged.css" "/out" options.

(** The sample tree after a first refresh with the default options. *)
Definition sample_refreshed : state :=
  snd (sample_refresh default_options (initial_state sample_tree)).


(** A build directory where a regular file sits at the path of the shadow
    link (the files of the test "should handle symlink errors gracefully"),
    with the main link in place. *)
Definition blocked_tree : gmap string node :=
  list_to_map
    [("/out", Dir []);
     ("/out/styles.css", Symlink "/out/.styles.shadow.css");
     ("/out/.styles.shadow.css", File "This is a file, not a symlink");
     ("/out/styles.backup.css", File "test content")].

(** One fragment, and the same fragment under another name. *)
Definition named_tree (name : string) : gmap string node :=
  list_to_map
    [("/out", Dir [name]);
     (Path.join "/out" name, File ".a{}")].


(** ** What the scanner walks through *)

(** The directories the scan of [root] enters: [root] itself, and every
    listed entry of such a directory that is a directory, is not excluded
    and is not called [node_modules]. *)
Inductive visited (fs : gmap string node) (exclude : list string) (root : string) :
    string -> Prop :=
| visited_root : visited fs exclude root root
| visited_sub (dir name : string) (names : list string) :
    visited fs exclude root dir ->
    fs !! dir = Some (Dir names) ->
    name ∈ names ->
    Path.join dir name ∉ exclude ->
    is_dir (fs !! Path.join dir name) = true ->
    name <> "node_modules" ->
    visited fs exclude root (Path.join dir name).

(** The entries the scan of [root] is after: a regular file listed in a
    directory it enters, with a name that matches, not excluded. *)
Definition found (fs : gmap string node) (pattern : string -> bool)
    (exclude : list string) (root file : string) : Prop :=
  exists (dir name : string) (names : list string),
    visited fs exclude root dir
    /\ fs !! dir = Some (Dir names)
    /\ name ∈ names
    /\ file = Path.join dir name
    /\ (file ∉ exclude)
    /\ is_file (fs !! file) = true
    /\ pattern name = true.

(** Two trees that the scanner cannot tell apart: outside the excluded
    paths they have regular files at the same paths, whatever the contents,
    and the same directories with the same listings. *)
Definition same_shape (exclude : list string) (fs fs' : gmap string node) : Prop :=
  forall p : string,
    p ∈ exclude
    \/ match fs !! p, fs' !! p with
       | Some (File _), Some (File _) => True
       | Some (Dir names), Some (Dir names') => names = names'
       | Some (File _), _ | Some (Dir _), _ | _, Some (File _) | _, Some (Dir _) => False
       | _, _ => True
       end.

(** ** The file handles *)

(** The two file handles of the closure: held or not. *)
Definition handles (s : state) : bool * bool := (tempFileHandle s, backupFileHandle s).

(** A step that neither takes nor releases a handle. *)
Definition holds {A} (m : M A) : Prop :=
  forall s : state, handles (snd (m s)) = handles s.

(** ** More samples *)


(** A build directory whose listing shows the plugin's own files, with an
    output file whose name ends in [.module.css]. *)
Definition occupied_tree : gmap string node :=
  list_to_map
    [("/out", Dir ["a.module.css"; "merged.module.css"; "styles.css";
                   ".styles.shadow.css"; "styles.temp.css"; "styles.backup.css"]);
     ("/out/a.module.css", File ".a{}");
     ("/out/merged.module.css", File ".old{}");
     ("/out/styles.css", Symlink "/out/.styles.shadow.css");
     ("/out/.styles.shadow.css", Symlink "/out/styles.backup.css");
     ("/out/styles.temp.css", File ".a{}");
     ("/out/styles.backup.css", File ".a{}")].

(** The sample tree after an edit of one fragment. *)
Definition edited_tree : gmap string node :=
  <["/out/a.module.css" := File ".changed{}"]> sample_tree.

(** A directory sits at the path of the temp buffer. *)
Definition dir_buffer_tree : gmap string node :=
  list_to_map
    [("/out", Dir []);
     ("/out/styles.temp.css", Dir [])].

(** The same, with links in place that lead to a file of an earlier
    build. *)
Definition rollback_tree : gmap string node :=
  list_to_map
    [("/out", Dir []);
     ("/out/styles.css", Symlink "/out/.styles.shadow.css");
     ("/out/.styles.shadow.css", Symlink "/out/old.css");
     ("/out/old.css", File ".old{}");
     ("/out/styles.temp.css", Dir []);
     ("/out/styles.backup.css", File ".old{}")].

(** A shadow link and its buffers, and no main link. *)
Definition headless_tree : gmap string node :=
  list_to_map
    [("/out", Dir []);
     ("/out/.styles.shadow.css", Symlink "/out/styles.backup.css");
     ("/out/styles.temp.css", File ".kept{}");
     ("/out/styles.backup.css", File ".kept{}")].



(** ** Directories and the shape of paths *)

(** The directories in which the plugin creates its files are there: the
    directory of each buffer and the directory of each link.  The calls of
    the model that create or write a file do not look at the directory; a
    theorem that concludes that such a call went through assumes it. *)
Definition housed (outputFile outputDir : string) (fs : gmap string node) : bool :=
  is_dir (fs !! Path.dirname (tempFile outputFile))
  && is_dir (fs !! Path.dirname (backupFile outputFile))
  && is_dir (fs !! Path.dirname (mainStylesLink outputDir))
  && is_dir (fs !! Path.dirname (shadowLink outputDir)).

(** The components of a path, split at the slashes. *)
Fixpoint segments_go (chars current : list ascii) : list (list ascii) :=
  match chars with
  | [] => [rev current]
  | c :: rest =>
      if Ascii.eqb c "/" then rev current :: segments_go rest []
      else segments_go rest (c :: current)
  end.

Definition segments (p : string) : list string :=
  map string_of_list_ascii (segments_go (list_ascii_of_string p) []).

(** A component that [path.join] and [path.resolve] leave alone. *)
Definition plain_name (name : string) : bool :=
  negb (String.eqb name "") && negb (String.eqb name ".") && negb (String.eqb name "..").

(** An absolute path in normal form, the root apart: it starts with a
    slash and has no empty component, no [.] and no [..].  On such a path
    [path.resolve] is the identity, and [path.join] with a plain name
    appends a slash and the name. *)
Definition normal_path (p : string) : bool :=
  match segments p with
  | first :: name :: rest => String.eqb first "" && forallb plain_name (name :: rest)
  | _ => false
  end.


(** * Properties *)

(** ** The monad: running a step *)

Lemma run_bind {A B} (m : M A) (f : A -> M B) (s : state) :
  (m ≫= f) s = match m s with
               | (Ok a, s') => f a s'
               | (Throw e, s') => (Throw e, s')
               end.
Proof. reflexivity. Qed.

Lemma run_inspect {A} (f : gmap string node -> result A) (s : state) :
  inspect f s = (f (fs s), s).
Proof. reflexivity. Qed.

(** ** Reading a list of files *)

Lemma mapM_readFile (files : list string) (s : state) :
  mapM (fun file => inspect (fun fs => Fs.readFile fs file)) files s
  = (read_all (fs s) files, s).
Proof.
  induction files as [|file rest IH]; simpl; [reflexivity|].
  rewrite run_bind, run_inspect.
  destruct (Fs.readFile (fs s) file) as [c|e]; [|reflexivity].
  rewrite run_bind, IH.
  destruct (read_all (fs s) rest); reflexivity.
Qed.

Lemma read_all_app (fs : gmap string node) (xs ys : list string) :
  read_all fs (xs ++ ys)
  = match read_all fs xs with
    | Throw e => Throw e
    | Ok cs =>
        match read_all fs ys with
        | Throw e => Throw e
        | Ok ds => Ok (cs ++ ds)
        end
    end.
Proof.
  induction xs as [|x xs IH]; simpl.
  - destruct (read_all fs ys); reflexivity.
  - destruct (Fs.readFile fs x); [|reflexivity].
    rewrite IH. destruct (read_all fs xs); [|reflexivity].
    destruct (read_all fs ys); reflexivity.
Qed.

Lemma read_all_Forall2 (fs1 fs2 : gmap string node) (xs ys : list string) :
  Forall2 (fun x y => Fs.readFile fs1 x = Fs.readFile fs2 y) xs ys ->
  read_all fs1 xs = read_all fs2 ys.
Proof.
  induction 1 as [|x y xs ys Hxy _ IH]; simpl; [reflexivity|].
  rewrite Hxy, IH. reflexivity.
Qed.

Lemma slice_batch {A} (i : nat) (xs : list A) :
  slice i (i + batchSize) xs = take batchSize (drop i xs).
Proof. unfold slice. replace (i + batchSize - i) with batchSize by lia. reflexivity. Qed.

(** ** The fingerprint *)

Section HashingFacts.

Variable sha256 : string -> string.

Lemma calculateFileHash_mapM (files : list string) (s : state) :
  mapM (calculateFileHash sha256) files s
  = (match read_all (fs s) files with
     | Ok cs => Ok (map sha256 cs)
     | Throw e => Throw e
     end, s).
Proof.
  induction files as [|file rest IH]; simpl; [reflexivity|].
  rewrite run_bind. unfold calculateFileHash at 1.
  rewrite run_bind, run_inspect.
  destruct (Fs.readFile (fs s) file) as [c|e]; [|reflexivity].
  cbn. rewrite run_bind, IH.
  destruct (read_all (fs s) rest); reflexivity.
Qed.

Lemma hash_loop (rounds i : nat) (files : list string) (fed : string) (s : state) :
  length files - i <= rounds ->
  for_batches rounds i files
    (fun batch fed =>
       hashes ← mapM (calculateFileHash sha256) batch;
       ret (foldl String.append fed hashes))
    fed s
  = (match read_all (fs s) (drop i files) with
     | Ok cs => Ok (foldl String.append fed (map sha256 cs))
     | Throw e => Throw e
     end, s).
Proof.
  revert i fed. induction rounds as [|rounds IH]; intros i fed Hle; simpl.
  - rewrite drop_ge by lia. reflexivity.
  - case_bool_decide as Hi.
    + rewrite run_bind, run_bind, slice_batch, calculateFileHash_mapM.
      rewrite <- (take_drop batchSize (drop i files)) at 2.
      rewrite read_all_app.
      destruct (read_all (fs s) (take batchSize (drop i files))) as [cs|e];
        [|reflexivity].
      cbn. rewrite IH by (unfold batchSize; lia).
      rewrite drop_drop. change batchSize with 5.
      destruct (read_all (fs s) (drop (i + 5) files)) as [ds|e];
        [|reflexivity].
      rewrite map_app, foldl_app. reflexivity.
    + rewrite drop_ge by lia. reflexivity.
Qed.

(** [calculateHash] in closed form: the digest of the digests of the
    contents, in order. *)
Lemma calculateHash_spec (files : list string) (s : state) :
  calculateHash sha256 files s
  = (match read_all (fs s) files with
     | Ok cs => Ok (sha256 (foldl String.append "" (map sha256 cs)))
     | Throw e => Throw e
     end, s).
Proof.
  unfold calculateHash. rewrite run_bind, hash_loop by lia.
  rewrite drop_0. destruct (read_all (fs s) files); reflexivity.
Qed.

End HashingFacts.

(** C10.  The fingerprint is a function of the contents read, in order:
    two lists of paths, possibly in two trees, that read pairwise the same
    give the same digest, and nothing else is asked of the two lists.  In
    particular, after a rename that keeps the content and the number of
    fragments, the digest test and the size test of the change detector see
    nothing, and the membership test alone reports the change. *)
Theorem fingerprint_ignores_paths (sha256 : string -> string)
    (s1 s2 : state) (files1 files2 : list string) :
  Forall2 (fun p q => Fs.readFile (fs s1) p = Fs.readFile (fs s2) q) files1 files2 ->
  let h1 := fst (calculateHash sha256 files1 s1) in
  let h2 := fst (calculateHash sha256 files2 s2) in
  h2 = h1
  /\ (forall renamed d1 d2 : string,
        NoDup files1 ->
        renamed ∈ files2 ->
        renamed ∉ files1 ->
        h1 = Ok d1 -> h2 = Ok d2 ->
        negb (String.eqb d2 d1) = false
        /\ negb (Nat.eqb (length files2) (size (list_to_set files1 : gset string))) = false
        /\ negb (forallb (fun file => bool_decide (file ∈ (list_to_set files1 : gset string)))
                         files2) = true
        /\ hasChanged files2 d2 (list_to_set files1) d1 = true).
Proof.
  intros Hread h1 h2.
  assert (Hsame : h2 = h1).
  { unfold h1, h2. rewrite !calculateHash_spec. cbn.
    rewrite (read_all_Forall2 _ _ _ _ Hread). reflexivity. }
  split; [exact Hsame|].
  intros renamed d1 d2 Hnodup Hin Hnotin Hd1 Hd2.
  assert (d2 = d1) as -> by congruence.
  assert (Hsize : size (list_to_set files1 : gset string) = length files2).
  { rewrite size_list_to_set by exact Hnodup. eapply Forall2_length, Hread. }
  assert (Hmember : negb (forallb (fun file => bool_decide (file ∈ (list_to_set files1 : gset string)))
                                  files2) = true).
  { apply negb_true_iff, not_true_iff_false. intros Hall.
    rewrite forallb_forall in Hall.
    apply list_elem_of_In, Hall, bool_decide_eq_true in Hin.
    apply Hnotin. set_solver. }
  unfold hasChanged. rewrite String.eqb_refl, Hsize, Nat.eqb_refl, Hmember.
  repeat split.
Qed.

(** C5.  The change test answers true exactly when the digest differs, or
    the number of paths differs from the size of the remembered set, or a
    path is not in the remembered set; with the remembered state of a new
    plugin (no path, empty digest) it answers true for every list that is not
    empty. *)
Theorem hasChanged_spec (moduleFiles : list string) (currentHash : string)
    (lastFiles : gset string) (lastHash : string) :
  (hasChanged moduleFiles currentHash lastFiles lastHash = true
   <-> (currentHash <> lastHash
        \/ length moduleFiles <> size lastFiles
        \/ exists file, file ∈ moduleFiles /\ file ∉ lastFiles))
  /\ (forall (fs : gmap string node) (file : string) (rest : list string),
        hasChanged (file :: rest) currentHash
          (lastKnownFiles (initial_state fs)) (lastKnownHash (initial_state fs))
        = true).
Proof.
  split.
  - unfold hasChanged. rewrite !orb_true_iff, !negb_true_iff.
    rewrite String.eqb_neq, Nat.eqb_neq.
    assert (Hall : forallb (fun file => bool_decide (file ∈ lastFiles)) moduleFiles = false
                   <-> exists file, file ∈ moduleFiles /\ file ∉ lastFiles).
    { rewrite <- not_true_iff_false, forallb_forall. split.
      - intros Hnot.
        destruct (decide (Exists (fun file => file ∉ lastFiles) moduleFiles)) as [Hex|Hno].
        + apply Exists_exists in Hex. exact Hex.
        + exfalso. apply Hnot. intros file Hin. apply bool_decide_eq_true.
          destruct (decide (file ∈ lastFiles)) as [|Hout]; [assumption|].
          exfalso. apply Hno, Exists_exists. exists file.
          split; [apply list_elem_of_In|]; assumption.
      - intros (file & Hin & Hout) Hall. apply Hout.
        apply list_elem_of_In, Hall, bool_decide_eq_true in Hin. exact Hin. }
    tauto.
  - intros fs file rest. unfold hasChanged. cbn.
    rewrite size_empty. cbn. apply orb_true_r.
Qed.

(** ** Paths of the plugin *)

Lemma list_ascii_app (a b : string) :
  list_ascii_of_string (a +:+ b) = list_ascii_of_string a ++ list_ascii_of_string b.
Proof. induction a as [|c a IH]; simpl; [reflexivity|]. rewrite IH. reflexivity. Qed.

Lemma rev_join (d n : string) :
  rev (list_ascii_of_string (Path.join d n))
  = rev (list_ascii_of_string n) ++ "/"%char :: rev (list_ascii_of_string d).
Proof.
  unfold Path.join. rewrite !list_ascii_app, !rev_app_distr. simpl.
  rewrite <- app_assoc. reflexivity.
Qed.

(** Two joined paths whose last components differ, compared from the end. *)
Ltac join_ne :=
  let H := fresh in
  intros H; apply (f_equal (fun p => rev (list_ascii_of_string p))) in H;
  cbv beta in H; rewrite !rev_join in H; simpl in H; discriminate H.

Lemma temp_ne_backup f : tempFile f <> backupFile f.
Proof. unfold tempFile, backupFile. join_ne. Qed.
Lemma temp_ne_main f d : tempFile f <> mainStylesLink d.
Proof. unfold tempFile, mainStylesLink. join_ne. Qed.
Lemma temp_ne_shadow f d : tempFile f <> shadowLink d.
Proof. unfold tempFile, shadowLink. join_ne. Qed.
Lemma backup_ne_main f d : backupFile f <> mainStylesLink d.
Proof. unfold backupFile, mainStylesLink. join_ne. Qed.
Lemma backup_ne_shadow f d : backupFile f <> shadowLink d.
Proof. unfold backupFile, shadowLink. join_ne. Qed.
Lemma main_ne_shadow d : mainStylesLink d <> shadowLink d.
Proof. unfold mainStylesLink, shadowLink. join_ne. Qed.

#[global] Arguments tempFile : simpl never.
#[global] Arguments backupFile : simpl never.
#[global] Arguments mainStylesLink : simpl never.
#[global] Arguments shadowLink : simpl never.

(** ** Running file-system calls *)

Lemma realpath_go_end (fs : gmap string node) (n : nat) (p : string) :
  (forall t, fs !! p <> Some (Symlink t)) -> Fs.realpath_go fs n p = Ok p.
Proof.
  intros H. destruct n; simpl; destruct (fs !! p) as [[]|]; try reflexivity;
    exfalso; eapply H; reflexivity.
Qed.

Lemma realpath_go_step (fs : gmap string node) (n : nat) (p t : string) :
  fs !! p = Some (Symlink t) -> Fs.realpath_go fs (S n) p = Fs.realpath_go fs n t.
Proof. intros H. simpl. rewrite H. reflexivity. Qed.

Lemma realpath_plain (fs : gmap string node) (p : string) :
  plain (fs !! p) = true -> Fs.realpath fs p = Ok p.
Proof.
  intros H. apply realpath_go_end. intros t Ht. rewrite Ht in H. discriminate.
Qed.

Lemma realpath_link_plain (fs : gmap string node) (p t : string) :
  fs !! p = Some (Symlink t) -> plain (fs !! t) = true -> Fs.realpath fs p = Ok t.
Proof.
  intros Hp Ht. unfold Fs.realpath, Fs.MAXSYMLINKS.
  rewrite (realpath_go_step _ _ _ _ Hp). apply realpath_go_end.
  intros t' Ht'. rewrite Ht' in Ht. discriminate.
Qed.

Lemma writeFile_plain (fs : gmap string node) (p c : string) :
  plain (fs !! p) = true -> Fs.writeFile fs p c = Ok [EvTruncate p; EvWritten p c].
Proof.
  intros H. unfold Fs.writeFile. rewrite realpath_plain by exact H.
  destruct (fs !! p) as [[]|]; try discriminate; reflexivity.
Qed.

Lemma readFile_plain (fs : gmap string node) (p : string) :
  plain (fs !! p) = true ->
  Fs.readFile fs p = match fs !! p with Some (File c) => Ok c | _ => Throw ENOENT end.
Proof.
  intros H. unfold Fs.readFile. rewrite realpath_plain by exact H.
  destruct (fs !! p) as [[]|]; try discriminate; reflexivity.
Qed.

Lemma readFile_link_plain (fs : gmap string node) (p t : string) :
  fs !! p = Some (Symlink t) -> plain (fs !! t) = true ->
  Fs.readFile fs p = match fs !! t with Some (File c) => Ok c | _ => Throw ENOENT end.
Proof.
  intros Hp H. unfold Fs.readFile. rewrite (realpath_link_plain _ _ _ Hp H).
  destruct (fs !! t) as [[]|]; try discriminate; reflexivity.
Qed.

Lemma readFile_dir (fs : gmap string node) (p : string) (entries : list string) :
  fs !! p = Some (Dir entries) -> Fs.readFile fs p = Throw EISDIR.
Proof.
  intros H. unfold Fs.readFile, Fs.realpath. rewrite realpath_go_end by congruence.
  rewrite H. reflexivity.
Qed.

Lemma existsSync_plain (fs : gmap string node) (p : string) :
  plain (fs !! p) = true -> Fs.existsSync fs p = is_file (fs !! p).
Proof.
  intros H. unfold Fs.existsSync. rewrite realpath_plain by exact H.
  destruct (fs !! p) as [[]|]; try discriminate; reflexivity.
Qed.

Lemma existsSync_link_plain (fs : gmap string node) (p t : string) :
  fs !! p = Some (Symlink t) -> plain (fs !! t) = true ->
  Fs.existsSync fs p = is_file (fs !! t).
Proof.
  intros Hp H. unfold Fs.existsSync. rewrite (realpath_link_plain _ _ _ Hp H).
  destruct (fs !! t) as [[]|]; try discriminate; reflexivity.
Qed.

Lemma open_append_plain (fs : gmap string node) (p : string) :
  plain (fs !! p) = true ->
  Fs.open_append fs p = Ok (if is_file (fs !! p) then [] else [EvCreate p]).
Proof.
  intros H. unfold Fs.open_append. rewrite realpath_plain by exact H.
  destruct (fs !! p) as [[]|]; try discriminate; reflexivity.
Qed.

Lemma perform_nil (s : state) : perform [] s = s.
Proof. destruct s. unfold perform. simpl. rewrite app_nil_r. reflexivity. Qed.

Lemma replay_app (e1 e2 : list event) (fs : gmap string node) :
  replay (e1 ++ e2) fs = replay e2 (replay e1 fs).
Proof. apply foldl_app. Qed.

Lemma perform_perform (e1 e2 : list event) (s : state) :
  perform e2 (perform e1 s) = perform (e1 ++ e2) s.
Proof. unfold perform. simpl. rewrite replay_app, app_assoc. reflexivity. Qed.

Lemma run_mutate (f : gmap string node -> result (list event)) (s : state) :
  mutate f s = match f (fs s) with Ok evs => (Ok tt, perform evs s) | Throw e => (Throw e, s) end.
Proof. reflexivity. Qed.

Lemma run_try_catch {A} (m : M A) (h : errno -> M A) (s : state) :
  try_catch m h s = match m s with (Ok a, s') => (Ok a, s') | (Throw e, s') => h e s' end.
Proof. reflexivity. Qed.


Lemma run_gets {A} (f : state -> A) (s : state) : gets f s = (Ok (f s), s).
Proof. reflexivity. Qed.
Lemma run_modify (f : state -> state) (s : state) : modify f s = (Ok tt, f s).
Proof. reflexivity. Qed.
Lemma run_ret {A} (a : A) (s : state) : ret a s = (Ok a, s).
Proof. reflexivity. Qed.
Lemma run_throw {A} (e : errno) (s : state) : @throw A e s = (Throw e, s).
Proof. reflexivity. Qed.

Lemma existsSync_link2 (fs : gmap string node) (p q t : string) :
  fs !! p = Some (Symlink q) -> fs !! q = Some (Symlink t) -> plain (fs !! t) = true ->
  Fs.existsSync fs p = is_file (fs !! t).
Proof.
  intros Hp Hq H. unfold Fs.existsSync, Fs.realpath, Fs.MAXSYMLINKS.
  rewrite (realpath_go_step _ _ _ _ Hp), (realpath_go_step _ _ _ _ Hq).
  rewrite realpath_go_end.
  - destruct (fs !! t) as [[]|]; try discriminate; reflexivity.
  - intros t' Ht'. rewrite Ht' in H. discriminate.
Qed.

Ltac ne := first [assumption | apply not_eq_sym; assumption | congruence].

Ltac lk :=
  repeat first
    [ rewrite lookup_insert_eq
    | rewrite lookup_delete_eq
    | rewrite lookup_insert_ne by ne
    | rewrite lookup_delete_ne by ne
    | match goal with
      | H : ?m !! ?k = _ |- context [?m !! ?k] => rewrite H
      end ].

Ltac fs_simpl :=
  cbn [fs trace lastKnownFiles lastKnownHash tempFileHandle backupFileHandle
       perform replay foldl apply_event set_handles set_lastKnown
       plain is_file is_dir app];
  lk.

Ltac solve_plain := solve [fs_simpl; reflexivity].

Ltac run :=
  repeat first
    [ rewrite run_bind
    | rewrite run_try_catch
    | rewrite run_mutate
    | rewrite run_inspect
    | rewrite run_gets
    | rewrite run_modify
    | rewrite run_ret
    | rewrite run_throw
    | rewrite perform_nil
    | rewrite writeFile_plain by solve_plain
    | rewrite open_append_plain by solve_plain
    | rewrite existsSync_plain by solve_plain
    | rewrite readFile_plain by solve_plain
    | erewrite existsSync_link_plain by solve_plain
    | erewrite existsSync_link2 by solve_plain
    | erewrite readFile_link_plain by solve_plain
    | rewrite bool_decide_eq_true_2 by (first [reflexivity | assumption])
    | rewrite bool_decide_eq_false_2 by ne
    | progress unfold Fs.unlink, Fs.symlink, Fs.readlink, Fs.mkdir_p
    | progress fs_simpl ].


(** The four paths of a plugin are pairwise distinct. *)
Ltac distinct_paths f d :=
  pose proof (temp_ne_backup f);
  pose proof (temp_ne_main f d);
  pose proof (temp_ne_shadow f d);
  pose proof (backup_ne_main f d);
  pose proof (backup_ne_shadow f d);
  pose proof (main_ne_shadow d).

(** The trees that [sane] allows, one by one. *)
Ltac sane_cases Hsane fs0 f d :=
  unfold sane, buffers_plain, links_ok, dirs_exist, handles_ok in Hsane;
  cbn [fs tempFileHandle backupFileHandle] in Hsane;
  rewrite !andb_true_iff in Hsane;
  destruct Hsane as [[[[Htemp Hbackup] [Hmain Hshadow]] [[Hd0 Hd1] Hd2]] [Hh1 Hh2]];
  destruct (fs0 !! d) as [[| |e0]|] eqn:Ed0; try discriminate;
  destruct (fs0 !! Path.dirname (mainStylesLink d)) as [[| |e1]|] eqn:Ed1; try discriminate;
  destruct (fs0 !! Path.dirname (shadowLink d)) as [[| |e2]|] eqn:Ed2; try discriminate;
  destruct (fs0 !! tempFile f) as [[c1| |]|] eqn:Etemp; try discriminate;
  destruct (fs0 !! backupFile f) as [[c2| |]|] eqn:Ebackup; try discriminate;
  destruct (fs0 !! mainStylesLink d) as [[|t1|]|] eqn:Emain; try discriminate;
  destruct (fs0 !! shadowLink d) as [[|t2|]|] eqn:Eshadow; try discriminate;
  try (destruct (fs0 !! t2) as [[c3| |]|] eqn:Et2; try discriminate);
  try (apply bool_decide_eq_true in Hmain; subst t1);
  clear Htemp Hbackup Hshadow Hd0 Hd1 Hd2;
  try (assert (t2 <> tempFile f) by congruence;
       assert (t2 <> backupFile f) by congruence;
       assert (t2 <> mainStylesLink d) by congruence;
       assert (t2 <> shadowLink d) by congruence).

(** ** The scanner and trees that differ where it does not look *)

Lemma frame_refl (exempt : list string) (fs : gmap string node) : frame exempt fs fs.
Proof. intros p. right. destruct (solid (fs !! p)); reflexivity. Qed.

Lemma frame_trans (exempt : list string) (fs1 fs2 fs3 : gmap string node) :
  frame exempt fs1 fs2 -> frame exempt fs2 fs3 -> frame exempt fs1 fs3.
Proof.
  intros H12 H23 p. destruct (H12 p) as [|H1]; [left; assumption|].
  destruct (H23 p) as [|H2]; [left; assumption|]. right.
  destruct (solid (fs1 !! p)) eqn:E1.
  - rewrite H1 in H2. rewrite E1 in H2. congruence.
  - rewrite H1 in H2. exact H2.
Qed.

Lemma frame_mono (exempt exempt' : list string) (fs fs' : gmap string node) :
  exempt ⊆ exempt' -> frame exempt fs fs' -> frame exempt' fs fs'.
Proof. intros Hsub H p. destruct (H p) as [Hin|Hp]; [left; apply Hsub, Hin|right; exact Hp]. Qed.

Lemma scan_entries_frame (scan scan' : string -> result (list string))
    (fs fs' : gmap string node) (dir : string)
    (pattern : string -> bool) (exclude entries files : list string) :
  frame exclude fs fs' ->
  (forall sub, Fs.readdir fs sub = Fs.readdir fs' sub -> scan sub = scan' sub) ->
  scan_entries scan fs dir pattern exclude entries files
  = scan_entries scan' fs' dir pattern exclude entries files.
Proof.
  intros Hframe Hscan. revert files.
  induction entries as [|name rest IH]; intros files; simpl; [reflexivity|].
  case_bool_decide as Hex; [apply IH|].
  destruct (Hframe (Path.join dir name)) as [Hin|Hp]; [exfalso; apply Hex, Hin|].
  destruct (fs !! Path.join dir name) as [[c|t|names]|] eqn:E; cbn in Hp.
  - rewrite Hp. destruct (pattern name); apply IH.
  - destruct (fs' !! Path.join dir name) as [[| |]|]; try discriminate; apply IH.
  - rewrite Hp. case_bool_decide; [apply IH|].
    rewrite <- (Hscan (Path.join dir name)).
    + destruct (scan (Path.join dir name)); [apply IH|reflexivity].
    + unfold Fs.readdir. rewrite Hp, E. reflexivity.
  - destruct (fs' !! Path.join dir name) as [[| |]|]; try discriminate; apply IH.
Qed.

Lemma getAllFiles_frame (depth : nat) (fs fs' : gmap string node) (dir : string)
    (pattern : string -> bool) (exclude : list string) :
  frame exclude fs fs' ->
  Fs.readdir fs dir = Fs.readdir fs' dir ->
  getAllFiles depth fs dir pattern exclude = getAllFiles depth fs' dir pattern exclude.
Proof.
  intros Hframe. revert dir.
  induction depth as [|depth IH]; intros dir Hdir; simpl; [reflexivity|].
  rewrite <- Hdir. destruct (Fs.readdir fs dir) as [entries|e]; [|reflexivity].
  apply scan_entries_frame; [exact Hframe|]. intros sub Hsub. apply IH, Hsub.
Qed.

Lemma scan_entries_files (scan : string -> result (list string))
    (fs : gmap string node) (dir : string)
    (pattern : string -> bool) (exclude entries files found : list string) :
  (forall sub subFiles, scan sub = Ok subFiles -> Forall (scanned fs exclude) subFiles) ->
  Forall (scanned fs exclude) files ->
  scan_entries scan fs dir pattern exclude entries files = Ok found ->
  Forall (scanned fs exclude) found.
Proof.
  intros Hscan. revert files.
  induction entries as [|name rest IH]; intros files Hfiles; simpl.
  - intros [= <-]. exact Hfiles.
  - case_bool_decide as Hex; [apply IH; exact Hfiles|].
    destruct (fs !! Path.join dir name) as [[c|t|names]|] eqn:E.
    + destruct (pattern name); [|apply IH; exact Hfiles].
      apply IH. apply Forall_app. split; [exact Hfiles|].
      constructor; [|constructor]. unfold scanned. rewrite E. split; [reflexivity|exact Hex].
    + apply IH; exact Hfiles.
    + case_bool_decide; [apply IH; exact Hfiles|].
      destruct (scan (Path.join dir name)) as [sub|e] eqn:Esub; [|discriminate].
      apply IH. apply Forall_app. split; [exact Hfiles|].
      eapply Hscan, Esub.
    + apply IH; exact Hfiles.
Qed.

Lemma getAllFiles_files (depth : nat) (fs : gmap string node) (dir : string)
    (pattern : string -> bool) (exclude files : list string) :
  getAllFiles depth fs dir pattern exclude = Ok files ->
  Forall (scanned fs exclude) files.
Proof.
  revert dir files.
  induction depth as [|depth IH]; intros dir files; simpl; [discriminate|].
  destruct (Fs.readdir fs dir) as [entries|e]; [|discriminate].
  apply scan_entries_files; [|constructor].
  intros sub subFiles. apply IH.
Qed.

Lemma read_all_frame (exempt : list string) (fs fs' : gmap string node) (files : list string) :
  frame exempt fs fs' ->
  Forall (scanned fs exempt) files ->
  read_all fs' files = read_all fs files.
Proof.
  intros Hframe. induction 1 as [|file rest [Hfile Hout] _ IH]; simpl; [reflexivity|].
  rewrite IH.
  destruct (Hframe file) as [Hin|Hp]; [contradiction|].
  destruct (fs !! file) as [[c| |]|] eqn:E; try discriminate. cbn in Hp.
  rewrite !readFile_plain by (rewrite ?Hp, ?E; reflexivity).
  rewrite Hp, E. reflexivity.
Qed.

Lemma read_all_length (fs : gmap string node) (files cs : list string) :
  read_all fs files = Ok cs -> length cs = length files.
Proof.
  revert cs. induction files as [|file rest IH]; intros cs; simpl.
  - intros [= <-]. reflexivity.
  - destruct (Fs.readFile fs file); [|discriminate].
    destruct (read_all fs rest) as [ds|]; [|discriminate].
    intros [= <-]. simpl. rewrite (IH ds eq_refl). reflexivity.
Qed.


(** ** The publisher and the setup on a sane tree *)

Section Publisher.

Variables outputFile outputDir : string.

Abbreviation temp := (tempFile outputFile).
Abbreviation backup := (backupFile outputFile).
Abbreviation main := (mainStylesLink outputDir).
Abbreviation shadow := (shadowLink outputDir).

Lemma publish_skip (s : state) (c : string) (force : bool) :
  blank c && negb force = true ->
  atomicStyleUpdate outputFile outputDir c force s = (Ok false, s).
Proof.
  intros Hskip. unfold atomicStyleUpdate. rewrite run_try_catch, Hskip. reflexivity.
Qed.

Lemma publish_swap (s : state) (t c : string) (force : bool) :
  fs s !! shadow = Some (Symlink t) ->
  buffers_plain outputFile (fs s) = true ->
  blank c && negb force = false ->
  atomicStyleUpdate outputFile outputDir c force s
  = (Ok true, perform (swap_events outputFile outputDir t c) s).
Proof.
  intros Hsh Hbuf Hgo. distinct_paths outputFile outputDir.
  apply andb_true_iff in Hbuf as [Htemp Hbackup].
  destruct (fs s !! temp) as [[c1| |]|] eqn:Etemp; try discriminate;
  destruct (fs s !! backup) as [[c2| |]|] eqn:Ebackup; try discriminate.
  all: unfold atomicStyleUpdate, swap_events.
  all: rewrite run_try_catch; rewrite Hgo.
  all: destruct (decide (t = backup)) as [Ht|Ht]; [subst t|].
  all: (run; rewrite !perform_perform; reflexivity).
Qed.

Lemma publish_first (s : state) (c : string) (force : bool) :
  (forall t, fs s !! shadow <> Some (Symlink t)) ->
  buffers_plain outputFile (fs s) = true ->
  blank c && negb force = false ->
  atomicStyleUpdate outputFile outputDir c force s
  = (Ok (bool_decide (fs s !! shadow = None /\ fs s !! main = None)),
     perform (first_events outputFile outputDir (fs s) c) s).
Proof.
  intros Hsh Hbuf Hgo. distinct_paths outputFile outputDir.
  apply andb_true_iff in Hbuf as [Htemp Hbackup].
  destruct (fs s !! temp) as [[c1| |]|] eqn:Etemp; try discriminate;
  destruct (fs s !! backup) as [[c2| |]|] eqn:Ebackup; try discriminate.
  all: unfold atomicStyleUpdate, first_events.
  all: rewrite run_try_catch; rewrite Hgo.
  all: destruct (fs s !! shadow) as [[|t|]|] eqn:Eshadow;
       [|exfalso; eapply Hsh; reflexivity| |].
  all: destruct (fs s !! main) as [nd|] eqn:Emain.
  all: (run; rewrite ?perform_perform;
        rewrite ?bool_decide_eq_true_2 by (split; reflexivity);
        rewrite ?bool_decide_eq_false_2 by (intros [? ?]; discriminate);
        reflexivity).
Qed.


Lemma setup_sane (s : state) :
  sane outputFile outputDir s = true ->
  setupInitialFiles outputFile outputDir s
  = (Ok tt, set_handles true true (perform (setup_events outputFile outputDir (fs s)) s)).
Proof.
  destruct s as [fs0 tr lf lh h1 h2]. intros Hsane.
  distinct_paths outputFile outputDir.
  sane_cases Hsane fs0 outputFile outputDir.
  all: destruct h1; try discriminate; destruct h2; try discriminate.
  all: clear Hh1 Hh2.
  all: unfold setupInitialFiles, setup_events, cleanup.
  all: (run; unfold set_handles, perform; cbn; rewrite ?app_nil_r, <- ?app_assoc;
        try reflexivity).
Qed.

Lemma ready_elim (fs : gmap string node) :
  ready outputFile outputDir fs = true ->
  exists t c c1 c2,
    fs !! temp = Some (File c1) /\ fs !! backup = Some (File c2)
    /\ fs !! main = Some (Symlink shadow) /\ fs !! shadow = Some (Symlink t)
    /\ fs !! t = Some (File c) /\ dirs_exist outputDir fs = true.
Proof.
  unfold ready. rewrite !andb_true_iff.
  intros [[[[Htemp Hbackup] Hdirs] Hmain] Hshadow].
  destruct (fs !! temp) as [[c1| |]|]; try discriminate.
  destruct (fs !! backup) as [[c2| |]|]; try discriminate.
  destruct (fs !! main) as [[|t1|]|]; try discriminate.
  apply bool_decide_eq_true in Hmain. subst t1.
  destruct (fs !! shadow) as [[|t|]|]; try discriminate.
  destruct (fs !! t) as [[c| |]|] eqn:Et; try discriminate.
  exists t, c, c1, c2. auto 10.
Qed.

Lemma ready_sane (s : state) :
  ready outputFile outputDir (fs s) = true -> sane outputFile outputDir s = true.
Proof.
  intros (t & c & c1 & c2 & H1 & H2 & H3 & H4 & H5 & H6)%ready_elim.
  unfold sane, buffers_plain, links_ok, handles_ok.
  rewrite H1, H2, H3, H4, H5, H6. cbn.
  rewrite bool_decide_eq_true_2 by reflexivity.
  destruct (tempFileHandle s), (backupFileHandle s); reflexivity.
Qed.

Lemma ready_setup_events (fs : gmap string node) :
  ready outputFile outputDir fs = true -> setup_events outputFile outputDir fs = [].
Proof.
  intros (t & c & c1 & c2 & H1 & H2 & H3 & H4 & H5 & H6)%ready_elim.
  unfold setup_events. rewrite H1, H2, H3, H4. reflexivity.
Qed.

Lemma setup_ready (s : state) :
  sane outputFile outputDir s = true ->
  ready outputFile outputDir (replay (setup_events outputFile outputDir (fs s)) (fs s)) = true.
Proof.
  destruct s as [fs0 tr lf lh h1 h2]. cbn [fs]. intros Hsane. distinct_paths outputFile outputDir.
  sane_cases Hsane fs0 outputFile outputDir.
  all: unfold setup_events, ready, dirs_exist; lk; cbn [is_file app replay foldl apply_event].
  all: (lk; cbn; rewrite ?bool_decide_eq_true_2 by reflexivity; try reflexivity).
  all: lk; try reflexivity.
Qed.


Lemma swap_frame (fs : gmap string node) (t c : string) :
  fs !! shadow = Some (Symlink t) ->
  frame [temp; backup] fs (replay (swap_events outputFile outputDir t c) fs).
Proof.
  intros Hsh p. distinct_paths outputFile outputDir.
  destruct (decide (p = temp)) as [->|Hp1]; [left; set_solver|].
  destruct (decide (p = backup)) as [->|Hp2]; [left; set_solver|].
  right. unfold swap_events.
  destruct (decide (p = shadow)) as [->|Hp4].
  all: case_bool_decide; cbn [replay foldl apply_event]; lk; cbn; try reflexivity.
  all: destruct (solid (fs !! p)); reflexivity.
Qed.

Lemma swap_published (fs : gmap string node) (t c : string) :
  fs !! main = Some (Symlink shadow) ->
  published main (replay (swap_events outputFile outputDir t c) fs) = Ok c.
Proof.
  intros Hmain. distinct_paths outputFile outputDir. unfold swap_events, published, Fs.readlink.
  case_bool_decide; cbn [replay foldl apply_event]; lk.
  all: erewrite readFile_link_plain by (lk; reflexivity).
  all: lk; reflexivity.
Qed.

Lemma swap_ready (fs : gmap string node) (t c : string) :
  ready outputFile outputDir fs = true ->
  ready outputFile outputDir (replay (swap_events outputFile outputDir t c) fs) = true.
Proof.
  intros (t0 & c0 & c1 & c2 & H1 & H2 & H3 & H4 & H5 & H6)%ready_elim. distinct_paths outputFile outputDir.
  unfold dirs_exist in H6. rewrite !andb_true_iff in H6. destruct H6 as [[Hd0 Hd1] Hd2].
  destruct (fs !! outputDir) as [[| |e0]|] eqn:Ed0; try discriminate.
  destruct (fs !! Path.dirname main) as [[| |e1]|] eqn:Ed1; try discriminate.
  destruct (fs !! Path.dirname shadow) as [[| |e2]|] eqn:Ed2; try discriminate.
  unfold swap_events, ready, dirs_exist.
  case_bool_decide; cbn [replay foldl apply_event]; lk; cbn;
    rewrite ?bool_decide_eq_true_2 by reflexivity; lk; reflexivity.
Qed.


End Publisher.

(** ** The merge loop *)

Lemma append_cons (x : ascii) (a b : string) : String x a +:+ b = String x (a +:+ b).
Proof. reflexivity. Qed.

Lemma append_nil_r (a : string) : a +:+ "" = a.
Proof.
  induction a as [|x a IH]; [reflexivity|]. rewrite append_cons, IH. reflexivity.
Qed.

Lemma append_assoc (a b c : string) : (a +:+ b) +:+ c = a +:+ (b +:+ c).
Proof.
  induction a as [|x a IH]; [reflexivity|]. rewrite !append_cons, IH. reflexivity.
Qed.

Lemma join_batches_nil (rounds : nat) : join_batches rounds [] = "".
Proof. destruct rounds; reflexivity. Qed.

Lemma combine_loop (rounds i : nat) (files : list string) (acc : string) (s : state) :
  length files - i <= rounds ->
  for_batches rounds i files
    (fun batch combinedContent =>
       contents ← mapM (fun file => inspect (fun fs => Fs.readFile fs file)) batch;
       ret (combinedContent +:+ join_lines contents))
    acc s
  = (match read_all (fs s) (drop i files) with
     | Ok cs => Ok (acc +:+ join_batches rounds cs)
     | Throw e => Throw e
     end, s).
Proof.
  revert i acc. induction rounds as [|rounds IH]; intros i acc Hle; simpl.
  - rewrite drop_ge by lia. cbn. rewrite append_nil_r. reflexivity.
  - case_bool_decide as Hi.
    + rewrite run_bind, run_bind, slice_batch, mapM_readFile.
      rewrite <- (take_drop batchSize (drop i files)) at 2.
      rewrite read_all_app.
      destruct (read_all (fs s) (take batchSize (drop i files))) as [cs|e] eqn:Ecs;
        [|reflexivity].
      cbn. rewrite IH by (unfold batchSize; lia).
      rewrite drop_drop. change batchSize with 5 in *.
      destruct (read_all (fs s) (drop (i + 5) files)) as [ds|e] eqn:Eds;
        [|reflexivity].
      apply read_all_length in Ecs, Eds.
      rewrite length_take, length_drop in Ecs. rewrite length_drop in Eds.
      f_equal. f_equal. rewrite append_assoc. f_equal.
      destruct (cs ++ ds) as [|c0 rest0] eqn:Eapp.
      { apply (f_equal length) in Eapp. rewrite length_app in Eapp. simpl in Eapp. lia. }
      rewrite <- Eapp. clear Eapp c0 rest0.
      destruct (decide (5 <= length files - i)) as [Hfull|Hshort].
      * rewrite take_app_length' by lia. rewrite drop_app_length' by lia. reflexivity.
      * assert (ds = []) as -> by (apply length_zero_iff_nil; lia).
        rewrite app_nil_r, take_ge, drop_ge by lia.
        rewrite join_batches_nil. reflexivity.
    + rewrite drop_ge by lia. cbn. rewrite append_nil_r. reflexivity.
Qed.

(** Up to one batch the merge loop gives the contents joined with
    newlines. *)
Lemma join_batches_small (contents : list string) :
  length contents <= batchSize ->
  join_batches (length contents) contents = join_lines contents.
Proof.
  intros Hlen. destruct contents as [|c cs]; [reflexivity|].
  cbn [length join_batches].
  rewrite take_ge, drop_ge by exact Hlen.
  rewrite join_batches_nil, append_nil_r. reflexivity.
Qed.

Lemma combineContents_spec (files : list string) (s : state) :
  combineContents files s
  = (match read_all (fs s) files with
     | Ok cs => Ok (join_batches (length files) cs)
     | Throw e => Throw e
     end, s).
Proof.
  unfold combineContents. rewrite combine_loop by lia. rewrite drop_0.
  destruct (read_all (fs s) files); reflexivity.
Qed.

(** ** The remembered state of the change detector *)

Lemma keeps_ret {A} (a : A) : keeps (ret a).
Proof. intros s. reflexivity. Qed.
Lemma keeps_throw {A} (e : errno) : keeps (@throw A e).
Proof. intros s. reflexivity. Qed.
Lemma keeps_gets {A} (f : state -> A) : keeps (gets f).
Proof. intros s. reflexivity. Qed.
Lemma keeps_inspect {A} (f : gmap string node -> result A) : keeps (inspect f).
Proof. intros s. reflexivity. Qed.
Lemma keeps_mutate (f : gmap string node -> result (list event)) : keeps (mutate f).
Proof. intros s. unfold mutate. destruct (f (fs s)); reflexivity. Qed.
Lemma keeps_modify (f : state -> state) :
  (forall s, detector (f s) = detector s) -> keeps (modify f).
Proof. intros H s. apply H. Qed.
Lemma keeps_bind {A B} (m : M A) (f : A -> M B) :
  keeps m -> (forall a, keeps (f a)) -> keeps (m ≫= f).
Proof.
  intros Hm Hf s. rewrite run_bind. specialize (Hm s).
  destruct (m s) as [[a|e] s1]; simpl in *; [|exact Hm].
  rewrite Hf. exact Hm.
Qed.
Lemma keeps_try_catch {A} (m : M A) (h : errno -> M A) :
  keeps m -> (forall e, keeps (h e)) -> keeps (try_catch m h).
Proof.
  intros Hm Hh s. rewrite run_try_catch. specialize (Hm s).
  destruct (m s) as [[a|e] s1]; simpl in *; [exact Hm|].
  rewrite Hh. exact Hm.
Qed.

Ltac keeps_tac :=
  repeat first
    [ apply keeps_ret | apply keeps_throw | apply keeps_gets | apply keeps_inspect
    | apply keeps_mutate
    | apply keeps_modify; intros ?; reflexivity
    | apply keeps_bind; [|intros ?]
    | apply keeps_try_catch; [|intros ?]
    | match goal with
      | |- keeps (if ?b then _ else _) => destruct b
      | |- keeps (match ?x with _ => _ end) => destruct x
      end ].

Section Detector.
Variable sha256 : string -> string.
Variable postcssDiscardDuplicates : string -> result string.
Variables outputFile outputDir : string.
Variable options : MergeCssPluginOptions.

Lemma keeps_setupInitialFiles : keeps (setupInitialFiles outputFile outputDir).
Proof. unfold setupInitialFiles, cleanup. keeps_tac. Qed.

Lemma keeps_atomicStyleUpdate (c : string) (force : bool) :
  keeps (atomicStyleUpdate outputFile outputDir c force).
Proof. unfold atomicStyleUpdate. keeps_tac. Qed.

(** C8.  [onSuccess] replaces the remembered file set and digest only
    after a publication that returned true, with the scanned files and
    their digest; when the setup, the scan, the hashing, the merge or the
    publication fails, when the publication is not applied, and when
    nothing changed, they are what they were. *)
Theorem detector_replaced_only_on_success (s : state) :
  let r := fst (onSuccess sha256 postcssDiscardDuplicates outputFile outputDir options s) in
  let s' := snd (onSuccess sha256 postcssDiscardDuplicates outputFile outputDir options s) in
  (r <> Ok Updated /\ detector s' = detector s)
  \/ (exists (moduleFiles : list string) (currentHash css : string) (s_before s_after : state),
        r = Ok Updated
        /\ detector s_before = detector s
        /\ atomicStyleUpdate outputFile outputDir css false s_before = (Ok true, s_after)
        /\ s' = set_lastKnown (list_to_set moduleFiles) currentHash s_after).
Proof.
  intros r s'. subst r s'. unfold onSuccess.
  rewrite run_try_catch, run_bind.
  pose proof (keeps_setupInitialFiles s) as Hsetup.
  destruct (setupInitialFiles outputFile outputDir s) as [[[]|e] s1];
    cbn [snd] in Hsetup; [|left; split; [discriminate|exact Hsetup]].
  rewrite run_bind, run_inspect.
  destruct (getAllFiles _ _ _ _ _) as [moduleFiles|e];
    [|left; split; [discriminate|exact Hsetup]].
  rewrite run_bind.
  assert (Hcur : exists c,
    try_catch
      (currentTarget ← inspect (fun fs => Fs.readlink fs (shadowLink outputDir));
       inspect (fun fs => Fs.readFile fs currentTarget))
      (fun _ => ret "") s1 = (Ok c, s1)).
  { rewrite run_try_catch, run_bind, run_inspect.
    destruct (Fs.readlink (fs s1) (shadowLink outputDir)) as [t|e]; [|eexists; reflexivity].
    rewrite run_inspect. destruct (Fs.readFile (fs s1) t); eexists; reflexivity. }
  destruct Hcur as [currentContent ->].
  case_bool_decide.
  - rewrite run_bind, calculateHash_spec.
    destruct (read_all (fs s1) moduleFiles) as [cs|e] eqn:Eread;
      [|left; split; [discriminate|exact Hsetup]].
    rewrite run_bind, run_gets, run_bind, run_gets.
    destruct (hasChanged _ _ _ _).
    + rewrite run_bind, combineContents_spec, Eread, run_bind.
      destruct (postcssDiscardDuplicates _) as [css|e];
        [|left; split; [discriminate|exact Hsetup]].
      rewrite run_bind.
      pose proof (keeps_atomicStyleUpdate css false s1) as Hpub.
      destruct (atomicStyleUpdate outputFile outputDir css false s1) as [[[|]|e] s2] eqn:Epub;
        cbn [snd] in Hpub.
      * right. exists moduleFiles, (sha256 (foldl String.append "" (map sha256 cs))), css, s1, s2.
        rewrite run_bind, run_modify. cbn. auto.
      * left. cbn. split; [discriminate|congruence].
      * left. cbn. split; [discriminate|congruence].
    + left. destruct (verbose options).
      * rewrite run_bind. destruct (negb (blank currentContent)).
        -- rewrite run_bind.
           pose proof (keeps_atomicStyleUpdate currentContent false s1) as Hpub.
           destruct (atomicStyleUpdate _ _ _ _ _) as [[b|e] s2]; cbn [snd] in Hpub;
             cbn; (split; [discriminate|congruence]).
        -- cbn. split; [discriminate|exact Hsetup].
      * cbn. split; [discriminate|exact Hsetup].
  - left. destruct (negb (blank currentContent)).
    + rewrite run_bind.
      pose proof (keeps_atomicStyleUpdate currentContent false s1) as Hpub.
      destruct (atomicStyleUpdate _ _ _ _ _) as [[b|e] s2]; cbn [snd] in Hpub;
        cbn; (split; [discriminate|congruence]).
    + rewrite run_bind.
      pose proof (keeps_atomicStyleUpdate "" false s1) as Hpub.
      destruct (atomicStyleUpdate _ _ _ _ _) as [[b|e] s2]; cbn [snd] in Hpub;
        cbn; (split; [discriminate|congruence]).
Qed.
End Detector.

(** ** The refresh on a sane tree *)

Lemma new_events_perform (evs : list event) (s : state) :
  new_events s (perform evs s) = evs.
Proof. unfold new_events, perform. cbn. apply drop_app_length. Qed.

Lemma new_events_refl (s : state) : new_events s s = [].
Proof. unfold new_events. apply drop_all. Qed.

Section Refresh.
Variable sha256 : string -> string.
Variable postcssDiscardDuplicates : string -> result string.
Variables outputFile outputDir : string.
Variable options : MergeCssPluginOptions.

Abbreviation temp := (tempFile outputFile).
Abbreviation backup := (backupFile outputFile).
Abbreviation main := (mainStylesLink outputDir).
Abbreviation shadow := (shadowLink outputDir).
Abbreviation exclude := [absoluteOutputFile outputFile; tempFile outputFile; backupFile outputFile].
Abbreviation refresh := (onSuccess sha256 postcssDiscardDuplicates outputFile outputDir options).
Abbreviation scan fs := (getAllFiles PATH_DEPTH fs outputDir module_css exclude).

Lemma ready_current (fs : gmap string node) :
  ready outputFile outputDir fs = true ->
  fs !! shadow = Some (Symlink (current_target outputFile outputDir fs))
  /\ fs !! current_target outputFile outputDir fs
     = Some (File (content_at fs (current_target outputFile outputDir fs)))
  /\ published main fs = Ok (content_at fs (current_target outputFile outputDir fs))
  /\ fs !! main = Some (Symlink shadow)
  /\ buffers_plain outputFile fs = true.
Proof.
  intros (t & c & c1 & c2 & H1 & H2 & H3 & H4 & H5 & H6)%ready_elim.
  unfold current_target, content_at, buffers_plain. rewrite H4, H5, H1, H2.
  repeat split; try assumption.
  unfold published, Fs.readlink. rewrite H3.
  erewrite readFile_link_plain by (rewrite ?H4, ?H5; reflexivity).
  rewrite H5. reflexivity.
Qed.

Lemma onSuccess_sane (s : state) :
  sane outputFile outputDir s = true ->
  let s1 := set_handles true true (perform (setup_events outputFile outputDir (fs s)) s) in
  let t := current_target outputFile outputDir (fs s1) in
  let c := content_at (fs s1) t in
  refresh s
  = match scan (fs s1) with
    | Throw e => (Ok (Failed e), s1)
    | Ok files =>
        if bool_decide (0 < length files) then
          match read_all (fs s1) files with
          | Throw e => (Ok (Failed e), s1)
          | Ok cs =>
              let h := sha256 (foldl String.append "" (map sha256 cs)) in
              if hasChanged files h (lastKnownFiles s) (lastKnownHash s) then
                match postcssDiscardDuplicates (join_batches (length files) cs) with
                | Throw e => (Ok (Failed e), s1)
                | Ok css =>
                    if blank css then (Ok NotApplied, s1)
                    else (Ok Updated,
                          set_lastKnown (list_to_set files) h
                            (perform (swap_events outputFile outputDir t css) s1))
                end
              else if verbose options && negb (blank c)
                   then (Ok NoChanges, perform (swap_events outputFile outputDir t c) s1)
                   else (Ok NoChanges, s1)
          end
        else if negb (blank c)
             then (Ok PreservedExisting, perform (swap_events outputFile outputDir t c) s1)
             else (Ok NothingToPreserve, s1)
    end.
Proof.
  intros Hsane s1 t c.
  pose proof (setup_ready _ _ s Hsane) as Hready.
  change (replay _ (fs s)) with (fs s1) in Hready.
  destruct (ready_current _ Hready) as (Hsh & Ht & Hpub & Hmain & Hbuf).
  fold t in Hsh, Ht. fold c in Ht.
  unfold onSuccess.
  rewrite run_try_catch, run_bind, (setup_sane _ _ s Hsane). fold s1.
  rewrite run_bind, run_inspect.
  destruct (scan (fs s1)) as [files|e]; [|reflexivity].
  rewrite run_bind, run_try_catch, run_bind, run_inspect.
  unfold Fs.readlink at 1. rewrite Hsh. rewrite run_inspect.
  rewrite readFile_plain by (rewrite Ht; reflexivity). rewrite Ht.
  case_bool_decide.
  - rewrite run_bind, calculateHash_spec.
    destruct (read_all (fs s1) files) as [cs|e] eqn:Eread; [|reflexivity].
    rewrite run_bind, run_gets, run_bind, run_gets.
    change (lastKnownFiles s1) with (lastKnownFiles s).
    change (lastKnownHash s1) with (lastKnownHash s).
    cbv zeta.
    destruct (hasChanged _ _ _ _).
    + rewrite run_bind, combineContents_spec, Eread, run_bind.
      destruct (postcssDiscardDuplicates _) as [css|e]; [|reflexivity].
      rewrite run_bind.
      destruct (blank css) eqn:Eblank.
      * rewrite publish_skip by (rewrite Eblank; reflexivity). reflexivity.
      * rewrite (publish_swap _ _ s1 t css false Hsh Hbuf) by (rewrite Eblank; reflexivity).
        rewrite run_bind, run_modify. reflexivity.
    + destruct (verbose options); [|reflexivity].
      rewrite run_bind. destruct (blank c) eqn:Eblank; [reflexivity|].
      cbn [negb andb]. rewrite run_bind.
      rewrite (publish_swap _ _ s1 t c false Hsh Hbuf) by (rewrite Eblank; reflexivity).
      reflexivity.
  - destruct (blank c) eqn:Eblank; cbn [negb].
    + rewrite run_bind, publish_skip by reflexivity. reflexivity.
    + rewrite run_bind.
      rewrite (publish_swap _ _ s1 t c false Hsh Hbuf) by (rewrite Eblank; reflexivity).
      reflexivity.
Qed.



Lemma setup_published (s : state) (c : string) :
  sane outputFile outputDir s = true ->
  published main (fs s) = Ok c ->
  published main (replay (setup_events outputFile outputDir (fs s)) (fs s)) = Ok c.
Proof.
  destruct s as [fs0 tr lf lh h1 h2]. cbn [fs]. intros Hsane.
  distinct_paths outputFile outputDir.
  sane_cases Hsane fs0 outputFile outputDir.
  all: unfold published, Fs.readlink, setup_events; lk; try discriminate.
  all: try (rewrite (readFile_plain fs0) by (lk; reflexivity); lk; discriminate).
  all: erewrite (readFile_link_plain fs0) by (lk; reflexivity); lk.
  all: intros [= ->]; cbn [is_file app replay foldl apply_event]; lk.
  all: erewrite readFile_link_plain by (lk; reflexivity); lk; reflexivity.
Qed.

Lemma readdir_frame (fs fs' : gmap string node) (dir : string) :
  frame [temp; backup] fs fs' ->
  is_dir (fs !! dir) = true ->
  buffers_plain outputFile fs = true ->
  Fs.readdir fs dir = Fs.readdir fs' dir.
Proof.
  intros Hframe Hdir Hbuf. unfold Fs.readdir.
  apply andb_true_iff in Hbuf as [Htemp Hbackup].
  destruct (Hframe dir) as [Hin|Hp].
  - exfalso. apply list_elem_of_In in Hin. destruct Hin as [<-|[<-|[]]].
    + destruct (fs !! temp) as [[]|]; discriminate.
    + destruct (fs !! backup) as [[]|]; discriminate.
  - destruct (fs !! dir) as [[]|]; try discriminate. cbn in Hp. rewrite Hp. reflexivity.
Qed.

Lemma scan_frame (fs fs' : gmap string node) :
  frame [temp; backup] fs fs' ->
  is_dir (fs !! outputDir) = true ->
  buffers_plain outputFile fs = true ->
  scan fs' = scan fs.
Proof.
  intros Hframe Hdir Hbuf. symmetry. apply getAllFiles_frame.
  - eapply frame_mono; [|exact Hframe]. intros x. rewrite !elem_of_cons. tauto.
  - apply readdir_frame; assumption.
Qed.

Lemma scanned_read_frame (fs fs' : gmap string node) (files : list string) :
  frame [temp; backup] fs fs' ->
  scan fs = Ok files ->
  read_all fs' files = read_all fs files.
Proof.
  intros Hframe Hscan. apply (read_all_frame exclude).
  - eapply frame_mono; [|exact Hframe]. intros x. rewrite !elem_of_cons. tauto.
  - eapply getAllFiles_files, Hscan.
Qed.




Lemma new_events_handles (evs : list event) (a b : bool) (s : state) :
  new_events s (perform evs (set_handles a b (perform [] s))) = evs.
Proof.
  unfold new_events, perform, set_handles. cbn. rewrite app_nil_r. apply drop_app_length.
Qed.

(** C1, as the code has it.  After a refresh that updated the artifact,
    a second refresh over the same fragments publishes the same content.  It
    either writes nothing, or runs the swap once more with that very
    content: every buffer write of the second call writes the content that
    is already published. *)
Theorem refresh_twice_same_content (s0 s1 s2 : state) (r : result report) :
  sane outputFile outputDir s0 = true ->
  refresh s0 = (Ok Updated, s1) ->
  refresh s1 = (r, s2) ->
  exists css : string,
    published main (fs s1) = Ok css
    /\ published main (fs s2) = Ok css
    /\ (new_events s1 s2 = []
        \/ exists t, new_events s1 s2 = swap_events outputFile outputDir t css).
Proof.
  intros Hsane0 Hfirst Hsecond.
  rewrite (onSuccess_sane s0 Hsane0) in Hfirst. cbv zeta in Hfirst.
  set (s0' := set_handles true true (perform (setup_events outputFile outputDir (fs s0)) s0))
    in Hfirst.
  assert (Hready0 : ready outputFile outputDir (fs s0') = true)
    by exact (setup_ready _ _ s0 Hsane0).
  destruct (scan (fs s0')) as [files|e] eqn:Hscan; [|discriminate].
  destruct (bool_decide (0 < length files)) eqn:Hlen;
    [|destruct (negb _); discriminate].
  destruct (read_all (fs s0') files) as [cs|e] eqn:Hread; [|discriminate].
  destruct (hasChanged _ _ _ _);
    [|destruct (_ && _); discriminate].
  destruct (postcssDiscardDuplicates _) as [css|e] eqn:Hcss; [|discriminate].
  destruct (blank css) eqn:Hblank; [discriminate|].
  injection Hfirst as Hs1.
  set (t0 := current_target outputFile outputDir (fs s0')) in *.
  set (h := sha256 (foldl String.append "" (map sha256 cs))) in *.
  assert (Hfs1 : fs s1 = replay (swap_events outputFile outputDir t0 css) (fs s0'))
    by (rewrite <- Hs1; reflexivity).
  assert (Hfiles1 : lastKnownFiles s1 = list_to_set files /\ lastKnownHash s1 = h)
    by (rewrite <- Hs1; split; reflexivity).
  clear Hs1.
  assert (Hready1 : ready outputFile outputDir (fs s1) = true)
    by (rewrite Hfs1; apply swap_ready, Hready0).
  destruct (ready_current (fs s0') Hready0) as (Hsh0 & _ & _ & Hmain0 & Hbuf0).
  assert (Hpub1 : published main (fs s1) = Ok css)
    by (rewrite Hfs1; apply swap_published, Hmain0).
  assert (Hframe : frame [temp; backup] (fs s0') (fs s1))
    by (rewrite Hfs1; apply swap_frame, Hsh0).
  assert (Hdir0 : is_dir (fs s0' !! outputDir) = true).
  { unfold ready, dirs_exist in Hready0. rewrite !andb_true_iff in Hready0. tauto. }
  pose proof (ready_sane _ _ s1 Hready1) as Hsane1.
  rewrite (onSuccess_sane s1 Hsane1) in Hsecond. cbv zeta in Hsecond.
  rewrite (ready_setup_events _ _ _ Hready1) in Hsecond.
  set (s1' := set_handles true true (perform [] s1)) in Hsecond.
  change (fs s1') with (fs s1) in Hsecond.
  rewrite (scan_frame _ _ Hframe Hdir0 Hbuf0), Hscan, Hlen in Hsecond.
  rewrite (scanned_read_frame _ _ files Hframe Hscan), Hread in Hsecond.
  fold h in Hsecond.
  destruct (ready_current (fs s1) Hready1) as (Hsh1 & _ & Hcur1 & Hmain1 & _).
  assert (Hc : content_at (fs s1) (current_target outputFile outputDir (fs s1)) = css)
    by congruence.
  rewrite Hc, Hcss, Hblank in Hsecond.
  exists css. split; [exact Hpub1|].
  destruct (hasChanged _ _ _ _).
  - injection Hsecond as <- <-. split.
    + cbn [fs set_lastKnown perform]. apply swap_published, Hmain1.
    + right. eexists. unfold new_events. cbn [trace set_lastKnown].
      apply (new_events_handles _ true true s1).
  - destruct (verbose options); cbn [negb andb] in Hsecond; injection Hsecond as <- <-.
    + split.
      * cbn [fs perform]. apply swap_published, Hmain1.
      * right. eexists. apply (new_events_handles _ true true s1).
    + split; [exact Hpub1|]. left.
      unfold new_events, s1', perform, set_handles. cbn. rewrite app_nil_r. apply drop_all.
Qed.

End Refresh.

(** ** The publication protocol *)

Ltac eval_reads :=
  repeat first
    [ erewrite readFile_link_plain by (lk; reflexivity)
    | rewrite readFile_plain by (lk; reflexivity)
    | erewrite readFile_dir by (lk; reflexivity)
    | progress lk ].

Section Publication.
Variables outputFile outputDir : string.

Abbreviation temp := (tempFile outputFile).
Abbreviation backup := (backupFile outputFile).
Abbreviation main := (mainStylesLink outputDir).
Abbreviation shadow := (shadowLink outputDir).
Abbreviation publish := (atomicStyleUpdate outputFile outputDir).

(** C9, as the code has it.  After [onClear] the content behind the
    main link is empty, whatever was published before and whichever buffer
    was active, in a state that is initialised or not: where the same
    publication without [force] stops at the empty-content test and does
    nothing, the call of [onClear] passes [force] and goes through.  The
    state is any in which the shadow link is a link or missing, the main
    link points at the shadow link or is missing along with it, and no
    buffer path is taken by a link or a directory; the directories of the
    buffers and of the links are there, as [onClear] creates none. *)
Theorem clear_empties_artifact (s : state) :
  clearable outputFile outputDir (fs s) = true ->
  housed outputFile outputDir (fs s) = true ->
  publish "" false s = (Ok false, s)
  /\ published main (fs (snd (onClear outputFile outputDir s))) = Ok "".
Proof.
  intros Hclear _. split; [apply publish_skip; reflexivity|].
  unfold clearable in Hclear. apply andb_true_iff in Hclear as [Hbuf Hlinks].
  distinct_paths outputFile outputDir.
  unfold onClear. rewrite run_try_catch, run_bind.
  destruct (fs s !! shadow) as [[|t|]|] eqn:Eshadow; try discriminate;
    destruct (fs s !! main) as [[|t1|]|] eqn:Emain; try discriminate.
  - apply bool_decide_eq_true in Hlinks. subst t1.
    rewrite (publish_swap _ _ s t "" true Eshadow Hbuf) by reflexivity.
    cbn [snd ret fs perform]. apply swap_published, Emain.
  - apply bool_decide_eq_true in Hlinks. subst t1.
    rewrite (publish_first _ _ s "" true) by (congruence || assumption || reflexivity).
    unfold first_events, published, Fs.readlink. rewrite Eshadow, Emain.
    cbn [snd ret fs perform app replay foldl apply_event]. lk.
    erewrite readFile_link_plain by (lk; reflexivity). lk. reflexivity.
  - rewrite (publish_first _ _ s "" true) by (congruence || assumption || reflexivity).
    unfold first_events, published, Fs.readlink. rewrite Eshadow, Emain.
    cbn [snd ret fs perform app replay foldl apply_event]. lk.
    erewrite readFile_link_plain by (lk; reflexivity). lk. reflexivity.
Qed.

(** C7.  In a publication the shadow link is pointed at a buffer only
    when that buffer holds the whole new content, on the swap path and on
    the first-publication path.  A reader that goes through the main link
    at any moment of the call finds what was published before, or the new
    content, or no link; never a buffer that is being written. *)
Theorem link_follows_complete_write (s : state) (content : string) (force : bool) :
  buffers_plain outputFile (fs s) = true ->
  one_hop outputDir (fs s) = true ->
  let s' := snd (publish content force s) in
  let evs := new_events s s' in
  fs s' = replay evs (fs s)
  /\ (forall (n : nat) (buffer : string),
        evs !! n = Some (EvSymlink buffer shadow) ->
        Fs.readFile (replay (take n evs) (fs s)) buffer = Ok content)
  /\ (forall n : nat,
        let seen := published main (replay (take n evs) (fs s)) in
        seen = published main (fs s) \/ seen = Ok content \/ seen = Throw ENOENT).
Proof.
  intros Hbuf Hlinks s' evs. subst s' evs.
  destruct (blank content && negb force) eqn:Hskip.
  { rewrite publish_skip by exact Hskip. cbn [snd]. rewrite new_events_refl.
    split; [reflexivity|]. split.
    - intros n buffer Hn. rewrite lookup_nil in Hn. discriminate.
    - intros n. left. rewrite take_nil. reflexivity. }
  pose proof Hbuf as Hbuf'.
  apply andb_true_iff in Hbuf' as [Htemp Hbackup].
  unfold one_hop in Hlinks. apply andb_true_iff in Hlinks as [Hmain Hshadow].
  distinct_paths outputFile outputDir.
  destruct (fs s !! temp) as [[c1| |]|] eqn:Etemp; try discriminate;
  destruct (fs s !! backup) as [[c2| |]|] eqn:Ebackup; try discriminate.
  all: destruct (fs s !! main) as [[|t1|]|] eqn:Emain; try discriminate.
  all: try (apply bool_decide_eq_true in Hmain; subst t1).
  all: destruct (fs s !! shadow) as [[c3|t|e3]|] eqn:Eshadow.
  all: try (destruct (fs s !! t) as [[c0| |]|] eqn:Et; try discriminate).
  all: try (assert (t <> main) by congruence; assert (t <> shadow) by congruence).
  all: first
    [ rewrite (publish_swap _ _ s t content force Eshadow Hbuf Hskip)
    | rewrite (publish_first _ _ s content force) by (congruence || assumption) ].
  all: cbn [snd]; rewrite new_events_perform.
  all: (split; [reflexivity|]).
  all: unfold swap_events, first_events; lk.
  all: try (destruct (decide (t = backup)) as [->|Htb];
            [rewrite bool_decide_eq_true_2 by reflexivity
            |rewrite bool_decide_eq_false_2 by assumption;
             destruct (decide (t = temp)) as [->|Htt]]).
  all: cbn [app].
  all: (split;
    [ intros n buffer Hn;
      destruct n as [|[|[|[|[|[|[|n]]]]]]]; cbn in Hn; try discriminate;
      inversion Hn; try (exfalso; congruence); subst;
      cbn [take replay foldl apply_event];
      rewrite readFile_plain by (lk; reflexivity); lk; reflexivity
    | intros [|[|[|[|[|[|[|n]]]]]]]; cbn [take replay foldl apply_event];
      unfold published, Fs.readlink; eval_reads; auto ]).
Qed.
End Publication.

(** ** The code where the claims do not hold *)

(** C2.  The claim asks that [deduplicate: false] passes the concatenated
    content through.  The code never reads the option: [onSuccess] is the
    same function whatever [deduplicate] is, and with [deduplicate: false]
    the published content is what the collaborator returned. *)
Theorem deduplicate_is_never_read (sha256 : string -> string)
    (postcssDiscardDuplicates : string -> result string)
    (outputFile outputDir : string)
    (extensions : option (list string)) (verbose : option bool) (s : state) :
  onSuccess sha256 postcssDiscardDuplicates outputFile outputDir
            (mkOptions extensions (Some false) verbose) s
  = onSuccess sha256 postcssDiscardDuplicates outputFile outputDir
              (mkOptions extensions (Some true) verbose) s
  /\ published "/out/styles.css"
       (fs (snd (onSuccess sample_sha256 marking_postcss "/out/merged.css" "/out"
                           (mkOptions None (Some false) None)
                           (initial_state sample_tree))))
     = Ok ("/*deduplicated*/" +:+ join_lines [".a{}"; ".b{}"]).
Proof.
  split; [reflexivity|]. vm_compute. reflexivity.
Qed.

(** C3.  The claim asks that [verbose] changes the logging only.  In the
    code the re-publication of unchanged content sits inside
    [else if (verbose)]: from the same state, the call with [verbose] runs
    the swap and the call without it touches nothing; the content behind
    the main link is the same after both. *)
Theorem verbose_gates_republication :
  sample_refresh default_options (initial_state sample_tree) = (Ok Updated, sample_refreshed)
  /\ new_events sample_refreshed (snd (sample_refresh default_options sample_refreshed))
     = swap_events "/out/merged.css" "/out" "/out/styles.temp.css"
                   (join_lines [".a{}"; ".b{}"])
  /\ new_events sample_refreshed (snd (sample_refresh quiet_options sample_refreshed)) = []
  /\ published "/out/styles.css" (fs (snd (sample_refresh default_options sample_refreshed)))
     = published "/out/styles.css" (fs (snd (sample_refresh quiet_options sample_refreshed))).
Proof.
  split; [|split; [|split]]; vm_compute; reflexivity.
Qed.

(** C4.  The claim asks for all contents joined with newlines.  The code
    joins inside each batch of five and appends the batches without a
    separator: with six fragments the fifth and the sixth content touch. *)
Theorem merge_joins_within_batches_only :
  (forall (files : list string) (s : state),
      combineContents files s
      = (match read_all (fs s) files with
         | Ok contents => Ok (join_batches (length files) contents)
         | Throw e => Throw e
         end, s))
  /\ fst (combineContents six_files (initial_state six_tree))
     = Ok (join_lines ["a"; "b"; "c"; "d"; "e"] +:+ "f")
  /\ published "/out/styles.css"
       (fs (snd (sample_refresh default_options (initial_state six_tree))))
     = Ok (join_lines ["a"; "b"; "c"; "d"; "e"] +:+ "f")
  /\ join_lines ["a"; "b"; "c"; "d"; "e"] +:+ "f"
     <> join_lines ["a"; "b"; "c"; "d"; "e"; "f"].
Proof.
  split; [apply combineContents_spec|].
  split; [vm_compute; reflexivity|].
  split; [vm_compute; reflexivity|].
  vm_compute. discriminate.
Qed.

(** C1 as stated fails: after a refresh that updated the artifact, a
    second refresh with the default options writes the buffers again. *)
Lemma second_refresh_writes_buffers :
  sample_refresh default_options (initial_state sample_tree) = (Ok Updated, sample_refreshed)
  /\ published "/out/styles.css"
       (fs (snd (sample_refresh default_options sample_refreshed)))
     = published "/out/styles.css" (fs sample_refreshed)
  /\ EvWritten "/out/styles.backup.css" (join_lines [".a{}"; ".b{}"])
     ∈ new_events sample_refreshed (snd (sample_refresh default_options sample_refreshed)).
Proof.
  split; [vm_compute; reflexivity|].
  split; [vm_compute; reflexivity|].
  apply list_elem_of_In. vm_compute. tauto.
Qed.

(** C9 as stated fails: there are states from which [onClear] does not
    empty the artifact.  A call inside the publication throws, the publisher
    catches the error, and [onClear] returns as if nothing had happened.
    With a regular file at the path of the shadow link, the main link goes on
    to lead to that file; with a directory at the path of a buffer, the swap
    is rolled back and the old content stays; and where the shadow link is
    there without the main link, the main link is not created. *)
Lemma clear_does_not_always_empty :
  published "/out/styles.css"
    (fs (snd (onClear "/out/merged.css" "/out" (initial_state blocked_tree))))
  = Ok "This is a file, not a symlink"
  /\ published "/out/styles.css"
       (fs (snd (onClear "/out/merged.css" "/out" (initial_state blocked_tree))))
     <> Ok ""
  /\ published "/out/styles.css"
       (fs (snd (onClear "/out/merged.css" "/out" (initial_state rollback_tree))))
     = Ok ".old{}"
  /\ published "/out/styles.css"
       (fs (snd (onClear "/out/merged.css" "/out" (initial_state headless_tree))))
     = Throw ENOENT.
Proof.
  split; [vm_compute; reflexivity|].
  split; [vm_compute; discriminate|].
  split; vm_compute; reflexivity.
Qed.

(** ** The theorems at work on the samples *)

Lemma refresh_twice_same_content_witness :
  exists css : string,
    published "/out/styles.css" (fs sample_refreshed) = Ok css
    /\ published "/out/styles.css"
         (fs (snd (sample_refresh default_options sample_refreshed))) = Ok css
    /\ (new_events sample_refreshed (snd (sample_refresh default_options sample_refreshed)) = []
        \/ exists t,
             new_events sample_refreshed (snd (sample_refresh default_options sample_refreshed))
             = swap_events "/out/merged.css" "/out" t css).
Proof.
  apply (refresh_twice_same_content sample_sha256 sample_postcss
           "/out/merged.css" "/out" default_options
           (initial_state sample_tree) sample_refreshed
           (snd (sample_refresh default_options sample_refreshed))
           (fst (sample_refresh default_options sample_refreshed)));
    vm_compute; reflexivity.
Defined.


Lemma link_follows_complete_write_witness :
  let s' := snd (atomicStyleUpdate "/out/merged.css" "/out" ".new{}" false sample_refreshed) in
  let evs := new_events sample_refreshed s' in
  fs s' = replay evs (fs sample_refreshed)
  /\ (forall (n : nat) (buffer : string),
        evs !! n = Some (EvSymlink buffer "/out/.styles.shadow.css") ->
        Fs.readFile (replay (take n evs) (fs sample_refreshed)) buffer = Ok ".new{}")
  /\ (forall n : nat,
        let seen := published "/out/styles.css" (replay (take n evs) (fs sample_refreshed)) in
        seen = published "/out/styles.css" (fs sample_refreshed)
        \/ seen = Ok ".new{}" \/ seen = Throw ENOENT).
Proof.
  apply (link_follows_complete_write "/out/merged.css" "/out" sample_refreshed ".new{}" false);
    vm_compute; reflexivity.
Defined.

Lemma clear_empties_artifact_witness :
  atomicStyleUpdate "/out/merged.css" "/out" "" false sample_refreshed
  = (Ok false, sample_refreshed)
  /\ published "/out/styles.css"
       (fs (snd (onClear "/out/merged.css" "/out" sample_refreshed))) = Ok "".
Proof.
  apply (clear_empties_artifact "/out/merged.css" "/out" sample_refreshed);
    vm_compute; reflexivity.
Defined.

Lemma fingerprint_ignores_paths_witness :
  let h1 := fst (calculateHash sample_sha256 ["/out/a.module.css"]
                   (initial_state (named_tree "a.module.css"))) in
  let h2 := fst (calculateHash sample_sha256 ["/out/z.module.css"]
                   (initial_state (named_tree "z.module.css"))) in
  h2 = h1
  /\ (forall renamed d1 d2 : string,
        NoDup ["/out/a.module.css"] ->
        renamed ∈ ["/out/z.module.css"] ->
        renamed ∉ ["/out/a.module.css"] ->
        h1 = Ok d1 -> h2 = Ok d2 ->
        negb (String.eqb d2 d1) = false
        /\ negb (Nat.eqb (length ["/out/z.module.css"])
                         (size (list_to_set ["/out/a.module.css"] : gset string))) = false
        /\ negb (forallb (fun file =>
                            bool_decide (file ∈ (list_to_set ["/out/a.module.css"] : gset string)))
                         ["/out/z.module.css"]) = true
        /\ hasChanged ["/out/z.module.css"] d2 (list_to_set ["/out/a.module.css"]) d1 = true).
Proof.
  apply (fingerprint_ignores_paths sample_sha256
           (initial_state (named_tree "a.module.css"))
           (initial_state (named_tree "z.module.css"))
           ["/out/a.module.css"] ["/out/z.module.css"]).
  constructor; [vm_compute; reflexivity|constructor].
Defined.

(** ** The scanner: what it returns *)

Lemma scan_entries_sound (scanDir : string -> result (list string))
    (fs : gmap string node) (root dir : string) (pattern : string -> bool)
    (exclude names entries files result : list string) :
  visited fs exclude root dir ->
  fs !! dir = Some (Dir names) ->
  (forall name, name ∈ entries -> name ∈ names) ->
  (forall sub subFiles, visited fs exclude root sub -> scanDir sub = Ok subFiles ->
     Forall (found fs pattern exclude root) subFiles) ->
  Forall (found fs pattern exclude root) files ->
  scan_entries scanDir fs dir pattern exclude entries files = Ok result ->
  Forall (found fs pattern exclude root) result.
Proof.
  intros Hdir Hnames Hsub Hscan. revert files.
  induction entries as [|name rest IH]; intros files Hfiles; simpl.
  - intros [= <-]. exact Hfiles.
  - assert (Hrest : forall n, n ∈ rest -> n ∈ names)
      by (intros n Hn; apply Hsub; right; exact Hn).
    assert (Hname : name ∈ names) by (apply Hsub; left).
    specialize (IH Hrest).
    case_bool_decide as Hex; [apply IH; exact Hfiles|].
    destruct (fs !! Path.join dir name) as [[c|t|sub]|] eqn:E.
    + destruct (pattern name) eqn:Hpat; [|apply IH; exact Hfiles].
      apply IH. apply Forall_app. split; [exact Hfiles|].
      constructor; [|constructor].
      exists dir, name, names. rewrite E. auto 10.
    + apply IH; exact Hfiles.
    + case_bool_decide as Hnm; [apply IH; exact Hfiles|].
      destruct (scanDir (Path.join dir name)) as [subFiles|e] eqn:Esub; [|discriminate].
      apply IH. apply Forall_app. split; [exact Hfiles|].
      apply (Hscan (Path.join dir name)); [|exact Esub].
      eapply visited_sub; eauto. rewrite E. reflexivity.
    + apply IH; exact Hfiles.
Qed.

Lemma getAllFiles_sound (depth : nat) (fs : gmap string node) (root dir : string)
    (pattern : string -> bool) (exclude files : list string) :
  visited fs exclude root dir ->
  getAllFiles depth fs dir pattern exclude = Ok files ->
  Forall (found fs pattern exclude root) files.
Proof.
  revert dir files.
  induction depth as [|depth IH]; intros dir files Hdir; simpl; [discriminate|].
  unfold Fs.readdir. destruct (fs !! dir) as [[c|t|names]|] eqn:E; try discriminate.
  apply (scan_entries_sound _ _ root dir _ _ names); auto.
Qed.

Lemma scan_entries_complete (scanDir : string -> result (list string))
    (fs : gmap string node) (dir : string) (pattern : string -> bool)
    (exclude entries files result : list string) :
  scan_entries scanDir fs dir pattern exclude entries files = Ok result ->
  (forall file, file ∈ files -> file ∈ result)
  /\ (forall name, name ∈ entries -> Path.join dir name ∉ exclude ->
        match fs !! Path.join dir name with
        | Some (File _) => pattern name = true -> Path.join dir name ∈ result
        | Some (Dir _) =>
            name <> "node_modules" ->
            exists subFiles, scanDir (Path.join dir name) = Ok subFiles
                             /\ forall file, file ∈ subFiles -> file ∈ result
        | _ => True
        end).
Proof.
  revert files.
  induction entries as [|name rest IH]; intros files; simpl.
  - intros [= <-]. split; [auto|]. intros name Hin. inversion Hin.
  - assert (Hskip :
      scan_entries scanDir fs dir pattern exclude rest files = Ok result ->
      (Path.join dir name ∉ exclude ->
        match fs !! Path.join dir name with
        | Some (File _) => pattern name = true -> Path.join dir name ∈ result
        | Some (Dir _) =>
            name <> "node_modules" ->
            exists subFiles, scanDir (Path.join dir name) = Ok subFiles
                             /\ forall file, file ∈ subFiles -> file ∈ result
        | _ => True
        end) ->
      (forall file, file ∈ files -> file ∈ result)
      /\ (forall name0, name0 ∈ name :: rest -> Path.join dir name0 ∉ exclude ->
        match fs !! Path.join dir name0 with
        | Some (File _) => pattern name0 = true -> Path.join dir name0 ∈ result
        | Some (Dir _) =>
            name0 <> "node_modules" ->
            exists subFiles, scanDir (Path.join dir name0) = Ok subFiles
                             /\ forall file, file ∈ subFiles -> file ∈ result
        | _ => True
        end)).
    { intros Hrest Hhead. destruct (IH _ Hrest) as [Hacc Hall]. split; [exact Hacc|].
      intros name0 Hin. apply elem_of_cons in Hin as [->|Hin]; [exact Hhead|].
      apply Hall, Hin. }
    case_bool_decide as Hex; [intros H; apply Hskip; [exact H|]; intros; contradiction|].
    destruct (fs !! Path.join dir name) as [[c|t|sub]|] eqn:E.
    + destruct (pattern name) eqn:Hpat.
      * intros Hrest. destruct (IH _ Hrest) as [Hacc Hall]. split.
        -- intros file Hin. apply Hacc. apply elem_of_app. left. exact Hin.
        -- intros name0 Hin. apply elem_of_cons in Hin as [->|Hin]; [|apply Hall, Hin].
           intros _. rewrite E. intros _. apply Hacc. apply elem_of_app. right. left.
      * intros H. apply Hskip; [exact H|]. intros _ ?. congruence.
    + intros H. apply Hskip; [exact H|]. auto.
    + case_bool_decide as Hnm.
      * intros H. apply Hskip; [exact H|]. intros _ ?. contradiction.
      * destruct (scanDir (Path.join dir name)) as [subFiles|e] eqn:Esub; [|discriminate].
        intros Hrest. destruct (IH _ Hrest) as [Hacc Hall]. split.
        -- intros file Hin. apply Hacc. apply elem_of_app. left. exact Hin.
        -- intros name0 Hin. apply elem_of_cons in Hin as [->|Hin]; [|apply Hall, Hin].
           intros _. rewrite E. intros _. exists subFiles. split; [exact Esub|].
           intros file Hfile. apply Hacc. apply elem_of_app. right. exact Hfile.
    + intros H. apply Hskip; [exact H|]. auto.
Qed.

Lemma getAllFiles_visits (depth : nat) (fs : gmap string node) (root dir : string)
    (pattern : string -> bool) (exclude files : list string) :
  getAllFiles depth fs root pattern exclude = Ok files ->
  visited fs exclude root dir ->
  exists depth' subFiles,
    getAllFiles depth' fs dir pattern exclude = Ok subFiles
    /\ forall file, file ∈ subFiles -> file ∈ files.
Proof.
  intros Hroot. induction 1 as [|dir name names _ IH Hdir Hname Hex Hsub Hnm].
  - exists depth, files. auto.
  - destruct IH as (depth' & dirFiles & Hscan & Hincl).
    destruct depth' as [|depth']; [discriminate|]. simpl in Hscan.
    unfold Fs.readdir in Hscan. rewrite Hdir in Hscan.
    apply scan_entries_complete in Hscan as [_ Hall].
    specialize (Hall name Hname Hex).
    destruct (fs !! Path.join dir name) as [[| |sub]|]; try discriminate.
    destruct (Hall Hnm) as (subFiles & Hsubscan & Hsubincl).
    exists depth', subFiles. split; [exact Hsubscan|]. auto.
Qed.

Lemma scan_entries_fuel (scan scan' : string -> result (list string))
    (fs : gmap string node) (dir : string) (pattern : string -> bool)
    (exclude entries files result : list string) :
  (forall sub subFiles, scan sub = Ok subFiles -> scan' sub = Ok subFiles) ->
  scan_entries scan fs dir pattern exclude entries files = Ok result ->
  scan_entries scan' fs dir pattern exclude entries files = Ok result.
Proof.
  intros Hscan. revert files.
  induction entries as [|name rest IH]; intros files; simpl; [auto|].
  case_bool_decide; [apply IH|].
  destruct (fs !! Path.join dir name) as [[c|t|sub]|]; try apply IH.
  - destruct (pattern name); apply IH.
  - case_bool_decide; [apply IH|].
    destruct (scan (Path.join dir name)) as [subFiles|e] eqn:E; [|discriminate].
    rewrite (Hscan _ _ E). apply IH.
Qed.

Lemma getAllFiles_fuel (depth depth' : nat) (fs : gmap string node) (dir : string)
    (pattern : string -> bool) (exclude files : list string) :
  depth <= depth' ->
  getAllFiles depth fs dir pattern exclude = Ok files ->
  getAllFiles depth' fs dir pattern exclude = Ok files.
Proof.
  revert depth' dir files.
  induction depth as [|depth IH]; intros depth' dir files Hle; simpl; [discriminate|].
  destruct depth' as [|depth']; [lia|]. simpl.
  destruct (Fs.readdir fs dir) as [entries|e]; [|discriminate].
  apply scan_entries_fuel. intros sub subFiles. apply IH. lia.
Qed.

(** X1.  What [getAllFiles] returns.  When the scan of [root] returns a
    list, a path is in it exactly when it is a regular file, not excluded,
    whose name matches the pattern and which is listed in [root] or in a
    directory reached from [root] through listed directories that are not
    excluded and not called [node_modules].  The list does not depend on the
    bound on the depth: every larger bound gives the same list. *)
Theorem getAllFiles_returns_the_matching_files (depth : nat) (fs : gmap string node)
    (root : string) (pattern : string -> bool) (exclude files : list string) :
  getAllFiles depth fs root pattern exclude = Ok files ->
  (forall file : string, file ∈ files <-> found fs pattern exclude root file)
  /\ (forall depth' : nat, depth <= depth' ->
        getAllFiles depth' fs root pattern exclude = Ok files).
Proof.
  intros Hscan. split.
  - intros file. split.
    + intros Hin. eapply (proj1 (Forall_forall _ _)); [|exact Hin].
      eapply getAllFiles_sound; [apply visited_root|exact Hscan].
    + intros (dir & name & names & Hvisit & Hdir & Hname & -> & Hex & Hfile & Hpat).
      destruct (getAllFiles_visits _ _ _ _ _ _ _ Hscan Hvisit)
        as (depth' & dirFiles & Hdirscan & Hincl).
      destruct depth' as [|depth']; [discriminate|]. simpl in Hdirscan.
      unfold Fs.readdir in Hdirscan. rewrite Hdir in Hdirscan.
      apply scan_entries_complete in Hdirscan as [_ Hall].
      specialize (Hall name Hname Hex).
      destruct (fs !! Path.join dir name) as [[| |]|]; try discriminate.
      apply Hincl, Hall, Hpat.
  - intros depth' Hle. eapply getAllFiles_fuel; eauto.
Qed.

Lemma scan_entries_shape (scan scan' : string -> result (list string))
    (fs fs' : gmap string node) (dir : string)
    (pattern : string -> bool) (exclude entries files : list string) :
  same_shape exclude fs fs' ->
  (forall sub, Fs.readdir fs sub = Fs.readdir fs' sub -> scan sub = scan' sub) ->
  scan_entries scan fs dir pattern exclude entries files
  = scan_entries scan' fs' dir pattern exclude entries files.
Proof.
  intros Hshape Hscan. revert files.
  induction entries as [|name rest IH]; intros files; simpl; [reflexivity|].
  case_bool_decide as Hex; [apply IH|].
  destruct (Hshape (Path.join dir name)) as [Hin|Hp]; [exfalso; apply Hex, Hin|].
  pose proof (Hscan (Path.join dir name)) as Hsub. unfold Fs.readdir in Hsub.
  destruct (fs !! Path.join dir name) as [[c|t|names]|],
           (fs' !! Path.join dir name) as [[c'|t'|names']|];
    try contradiction; try apply IH.
  - destruct (pattern name); apply IH.
  - subst names'. case_bool_decide; [apply IH|].
    rewrite <- Hsub by reflexivity.
    destruct (scan (Path.join dir name)); [apply IH|reflexivity].
Qed.

(** X2.  The scanner looks at directory listings and at the kind of each
    entry, never at the content of a file, at a link or at an excluded path:
    two trees with the same regular files and the same directories outside
    the excluded paths are scanned alike, whether the scan returns or
    throws. *)
Theorem getAllFiles_reads_shapes_only (depth : nat) (fs fs' : gmap string node)
    (dir : string) (pattern : string -> bool) (exclude : list string) :
  same_shape exclude fs fs' ->
  Fs.readdir fs dir = Fs.readdir fs' dir ->
  getAllFiles depth fs dir pattern exclude = getAllFiles depth fs' dir pattern exclude.
Proof.
  intros Hshape. revert dir.
  induction depth as [|depth IH]; intros dir Hdir; simpl; [reflexivity|].
  rewrite <- Hdir. destruct (Fs.readdir fs dir) as [entries|e]; [|reflexivity].
  apply scan_entries_shape; [exact Hshape|]. intros sub Hsub. apply IH, Hsub.
Qed.

(** ** Names that end in [.module.css] *)

Lemma rev_app_append (a b acc : string) :
  String.rev_app (a +:+ b) acc = String.rev_app b (String.rev_app a acc).
Proof.
  revert acc. induction a as [|x a IH]; intros acc; [reflexivity|].
  rewrite append_cons. simpl. apply IH.
Qed.

Lemma rev_app_acc (a acc : string) :
  String.rev_app a acc = String.rev a +:+ acc.
Proof.
  unfold String.rev. revert acc. induction a as [|x a IH]; intros acc; [reflexivity|].
  simpl. rewrite IH, (IH (String x "")), append_assoc. reflexivity.
Qed.

Lemma string_rev_append (a b : string) :
  String.rev (a +:+ b) = String.rev b +:+ String.rev a.
Proof. unfold String.rev at 1. rewrite rev_app_append, rev_app_acc. reflexivity. Qed.

Lemma prefix_append (p a b : string) :
  String.prefix p a = true -> String.prefix p (a +:+ b) = true.
Proof.
  revert a. induction p as [|x p IH]; intros a.
  - intros _. destruct (a +:+ b); reflexivity.
  - destruct a as [|y a]; simpl; [discriminate|].
    destruct (ascii_dec x y); [apply IH|discriminate].
Qed.

Lemma ends_with_join (suffix dir name : string) :
  Path.ends_with suffix name = true -> Path.ends_with suffix (Path.join dir name) = true.
Proof.
  unfold Path.ends_with, Path.join. rewrite !string_rev_append, append_assoc.
  apply prefix_append.
Qed.

(** ** The plugin's own paths *)

Lemma main_not_module (outputDir : string) : module_css (mainStylesLink outputDir) = false.
Proof.
  unfold module_css, mainStylesLink, Path.ends_with, Path.join.
  rewrite !string_rev_append. vm_compute String.rev. rewrite !append_cons. reflexivity.
Qed.

Lemma shadow_not_module (outputDir : string) : module_css (shadowLink outputDir) = false.
Proof.
  unfold module_css, shadowLink, Path.ends_with, Path.join.
  rewrite !string_rev_append. vm_compute String.rev. rewrite !append_cons. reflexivity.
Qed.

Lemma dirname_go_app (name dir : list ascii) :
  Path.dirname_go name = None ->
  Path.dirname_go (name ++ "/"%char :: dir) = Some dir.
Proof.
  induction name as [|c name IH]; simpl; [reflexivity|].
  destruct (Ascii.eqb c "/"); [discriminate|exact IH].
Qed.

Lemma dirname_join (dir name : string) :
  dir <> "" ->
  Path.dirname_go (rev (list_ascii_of_string name)) = None ->
  Path.dirname (Path.join dir name) = dir.
Proof.
  intros Hdir Hname. unfold Path.dirname. rewrite rev_join, (dirname_go_app _ _ Hname).
  destruct (rev (list_ascii_of_string dir)) as [|x r] eqn:E.
  - exfalso. apply Hdir. apply (f_equal (@rev ascii)) in E.
    rewrite rev_involutive in E. simpl in E.
    rewrite <- (string_of_list_ascii_of_string dir), E. reflexivity.
  - rewrite <- E, rev_involutive. apply string_of_list_ascii_of_string.
Qed.

Lemma segments_go_app (a b current : list ascii) :
  segments_go (a ++ "/"%char :: b) current = segments_go a current ++ segments_go b [].
Proof.
  revert current. induction a as [|c a IH]; intros current; simpl; [reflexivity|].
  destruct (Ascii.eqb c "/"); rewrite IH; reflexivity.
Qed.

Lemma segments_join (dir name : string) :
  segments (Path.join dir name) = segments dir ++ segments name.
Proof.
  unfold segments, Path.join. rewrite list_ascii_app. simpl.
  rewrite segments_go_app, map_app. reflexivity.
Qed.

Lemma normal_path_join (dir name : string) :
  normal_path dir = true ->
  segments name = [name] ->
  plain_name name = true ->
  normal_path (Path.join dir name) = true.
Proof.
  unfold normal_path. rewrite segments_join. intros Hdir -> Hname.
  destruct (segments dir) as [|first [|seg rest]]; try discriminate.
  cbn [app]. apply andb_true_iff in Hdir as [Hfirst Hrest].
  rewrite Hfirst. cbn [andb].
  change (seg :: rest ++ [name]) with ((seg :: rest) ++ [name]).
  rewrite forallb_app, Hrest. cbn. rewrite Hname. reflexivity.
Qed.

Lemma normal_path_nonempty (p : string) : normal_path p = true -> p <> "".
Proof. intros H ->. discriminate H. Qed.

(** X3.  Where the plugin puts its files.  For an output directory and
    an output file given as absolute paths in normal form, the file not
    lying in the root: the two buffers lie in the directory of the output
    file and the two links in the output directory, under their fixed names;
    the four paths are again absolute and in normal form, so that nothing is
    left for [path.join] to normalise; and they are pairwise different, also
    when the output file lies in the output directory. *)
Theorem plugin_paths_are_distinct (outputFile outputDir : string) :
  normal_path outputDir = true ->
  normal_path outputFile = true ->
  normal_path (Path.dirname outputFile) = true ->
  NoDup [tempFile outputFile; backupFile outputFile;
         mainStylesLink outputDir; shadowLink outputDir]
  /\ Forall (fun p => normal_path p = true)
            [tempFile outputFile; backupFile outputFile;
             mainStylesLink outputDir; shadowLink outputDir]
  /\ Path.dirname (tempFile outputFile) = Path.dirname outputFile
  /\ Path.dirname (backupFile outputFile) = Path.dirname outputFile
  /\ Path.dirname (mainStylesLink outputDir) = outputDir
  /\ shadowLink outputDir = Path.join outputDir ".styles.shadow.css"
  /\ Path.dirname (shadowLink outputDir) = outputDir.
Proof.
  intros Hdir _ Hfile. distinct_paths outputFile outputDir.
  pose proof (normal_path_nonempty _ Hdir) as Hdir0.
  pose proof (normal_path_nonempty _ Hfile) as Hfile0.
  assert (Hmain : Path.dirname (mainStylesLink outputDir) = outputDir)
    by (apply dirname_join; [exact Hdir0|reflexivity]).
  assert (Hshadow : shadowLink outputDir = Path.join outputDir ".styles.shadow.css")
    by (unfold shadowLink at 1; rewrite Hmain; reflexivity).
  split; [|split; [|split; [|split; [|split; [|split]]]]].
  - repeat (constructor; [rewrite ?elem_of_cons, elem_of_nil; intuition congruence|]).
    constructor.
  - rewrite Hshadow. unfold tempFile, backupFile, mainStylesLink,
      absoluteOutputFile, absoluteOutputDir, Path.resolve.
    repeat constructor; apply normal_path_join; solve [assumption | reflexivity].
  - apply dirname_join; [exact Hfile0|reflexivity].
  - apply dirname_join; [exact Hfile0|reflexivity].
  - exact Hmain.
  - exact Hshadow.
  - rewrite Hshadow. apply dirname_join; [exact Hdir0|reflexivity].
Qed.

(** X4.  The scanner never hands the plugin's own files back to it.
    For an output directory and an output file given as absolute paths in
    normal form, with the exclusion list of [onSuccess], every path that the
    scan of the output directory returns ends in [.module.css] and is a
    regular file, and it is none of the output file, the two buffers, the
    main link and the shadow link. *)
Theorem scan_never_returns_own_files (outputFile outputDir : string)
    (depth : nat) (fs : gmap string node) (files : list string) :
  normal_path outputDir = true ->
  normal_path outputFile = true ->
  normal_path (Path.dirname outputFile) = true ->
  getAllFiles depth fs outputDir module_css
    [absoluteOutputFile outputFile; tempFile outputFile; backupFile outputFile] = Ok files ->
  forall file : string,
    file ∈ files ->
    module_css file = true
    /\ is_file (fs !! file) = true
    /\ file ∉ [absoluteOutputFile outputFile; tempFile outputFile; backupFile outputFile;
               mainStylesLink outputDir; shadowLink outputDir].
Proof.
  intros _ _ _ Hscan file Hin.
  pose proof (getAllFiles_sound _ _ outputDir outputDir _ _ _ (visited_root _ _ _) Hscan) as Hall.
  rewrite Forall_forall in Hall.
  destruct (Hall file Hin) as (dir & name & names & _ & _ & _ & -> & Hex & Hfile & Hpat).
  assert (Hmod : module_css (Path.join dir name) = true) by apply ends_with_join, Hpat.
  split; [exact Hmod|]. split; [exact Hfile|].
  intros Hown. rewrite !elem_of_cons, elem_of_nil in Hown.
  rewrite !elem_of_cons, elem_of_nil in Hex.
  destruct Hown as [H|[H|[H|[H|[H|[]]]]]]; try (apply Hex; tauto).
  - rewrite H, main_not_module in Hmod. discriminate.
  - rewrite H, shadow_not_module in Hmod. discriminate.
Qed.

(** ** The change test once the state is remembered *)

Lemma size_list_to_set_le (files : list string) :
  size (list_to_set files : gset string) <= length files.
Proof.
  induction files as [|file rest IH].
  - rewrite list_to_set_nil, size_empty. simpl. lia.
  - rewrite list_to_set_cons, size_union_alt, size_singleton. cbn [length].
    assert (Hsub : size (list_to_set rest ∖ {[file]} : gset string)
                   <= size (list_to_set rest : gset string)).
    { apply subseteq_size. intros x Hx. apply elem_of_difference in Hx. tauto. }
    lia.
Qed.

Lemma size_list_to_set_NoDup (files : list string) :
  size (list_to_set files : gset string) = length files <-> NoDup files.
Proof.
  split; [|apply size_list_to_set].
  induction files as [|file rest IH]; [constructor|].
  rewrite list_to_set_cons. cbn [length].
  intros Hsize. pose proof (size_list_to_set_le rest) as Hle.
  destruct (decide (file ∈ rest)) as [Hin|Hout].
  - exfalso.
    assert (({[file]} ∪ list_to_set rest : gset string) = list_to_set rest) as Heq
      by (apply leibniz_equiv; intros x; rewrite elem_of_union, elem_of_singleton,
            !elem_of_list_to_set; split; [intros [->|]; assumption|tauto]).
    rewrite Heq in Hsize. lia.
  - constructor; [exact Hout|]. apply IH.
    rewrite size_union, size_singleton in Hsize; [lia|].
    intros x Hx Hrest. apply elem_of_singleton in Hx. subst x.
    apply Hout. apply elem_of_list_to_set in Hrest. exact Hrest.
Qed.

Lemma hasChanged_same (moduleFiles : list string) (currentHash : string) :
  hasChanged moduleFiles currentHash (list_to_set moduleFiles) currentHash = false
  <-> NoDup moduleFiles.
Proof.
  unfold hasChanged. rewrite String.eqb_refl. cbn [negb orb].
  assert (Hall : forallb (fun file => bool_decide (file ∈ (list_to_set moduleFiles : gset string)))
                         moduleFiles = true).
  { apply forallb_forall. intros file Hin. apply bool_decide_eq_true.
    apply elem_of_list_to_set, list_elem_of_In, Hin. }
  rewrite Hall. cbn [negb]. rewrite orb_false_r, negb_false_iff, Nat.eqb_eq.
  rewrite <- size_list_to_set_NoDup. split; intros H; symmetry; exact H.
Qed.

(** X5.  Once the scanned files and their digest are remembered, as
    [onSuccess] does after an update, the change test over the same files
    and the same digest answers "unchanged" exactly when no path occurs
    twice in the list; a list with a repeated path is taken for a change
    every time, since the size of the remembered set is then smaller than
    the length of the list. *)
Theorem hasChanged_after_update (moduleFiles : list string) (currentHash : string) :
  hasChanged moduleFiles currentHash (list_to_set moduleFiles) currentHash = false
  <-> NoDup moduleFiles.
Proof. apply hasChanged_same. Qed.

(** ** The loops over batches *)

(** X6.  The batches of [calculateHash] do not show in its result: the
    digest is the digest of the per-file digests put end to end in the order
    of the list, the call throws the error of the first file that cannot be
    read, and it leaves the tree, the trace and the remembered state as they
    were. *)
Theorem calculateHash_is_digest_of_digests (sha256 : string -> string)
    (files : list string) (s : state) :
  calculateHash sha256 files s
  = (match read_all (fs s) files with
     | Ok contents => Ok (sha256 (String.concat "" (map sha256 contents)))
     | Throw e => Throw e
     end, s).
Proof.
  rewrite calculateHash_spec. destruct (read_all (fs s) files) as [contents|e]; [|reflexivity].
  f_equal. f_equal. f_equal.
  assert (Hfold : forall (acc : string) (pieces : list string),
            foldl String.append acc pieces = acc +:+ String.concat "" pieces).
  { intros acc pieces. revert acc.
    induction pieces as [|piece rest IH]; intros acc; simpl.
    - symmetry. apply append_nil_r.
    - rewrite IH. destruct rest as [|piece' rest'].
      + simpl. rewrite !append_nil_r. reflexivity.
      + rewrite append_assoc. reflexivity. }
  apply Hfold.
Qed.

(** X7.  Up to five fragments the merge loop runs a single batch, and the
    text handed to the collaborator is the contents of the fragments, in
    the order of the list, joined with newlines. *)
Theorem combineContents_single_batch (files contents : list string) (s : state) :
  length files <= batchSize ->
  read_all (fs s) files = Ok contents ->
  combineContents files s = (Ok (join_lines contents), s).
Proof.
  intros Hlen Hread. rewrite combineContents_spec, Hread.
  pose proof (read_all_length _ _ _ Hread) as Hsame.
  rewrite <- Hsame, join_batches_small by lia. reflexivity.
Qed.

(** ** The file handles *)

Lemma holds_ret {A} (a : A) : holds (ret a).
Proof. intros s. reflexivity. Qed.
Lemma holds_throw {A} (e : errno) : holds (@throw A e).
Proof. intros s. reflexivity. Qed.
Lemma holds_inspect {A} (f : gmap string node -> result A) : holds (inspect f).
Proof. intros s. reflexivity. Qed.
Lemma holds_mutate (f : gmap string node -> result (list event)) : holds (mutate f).
Proof. intros s. unfold mutate. destruct (f (fs s)); reflexivity. Qed.
Lemma holds_bind {A B} (m : M A) (f : A -> M B) :
  holds m -> (forall a, holds (f a)) -> holds (m ≫= f).
Proof.
  intros Hm Hf s. rewrite run_bind. specialize (Hm s).
  destruct (m s) as [[a|e] s1]; simpl in *; [|exact Hm].
  rewrite Hf. exact Hm.
Qed.
Lemma holds_try_catch {A} (m : M A) (h : errno -> M A) :
  holds m -> (forall e, holds (h e)) -> holds (try_catch m h).
Proof.
  intros Hm Hh s. rewrite run_try_catch. specialize (Hm s).
  destruct (m s) as [[a|e] s1]; simpl in *; [exact Hm|].
  rewrite Hh. exact Hm.
Qed.

Ltac holds_tac :=
  repeat first
    [ apply holds_ret | apply holds_throw | apply holds_inspect | apply holds_mutate
    | apply holds_bind; [|intros ?]
    | apply holds_try_catch; [|intros ?]
    | match goal with
      | |- holds (if ?b then _ else _) => destruct b
      | |- holds (match ?x with _ => _ end) => destruct x
      end ].

Lemma ok_bind {A B} (m : M A) (f : A -> M B) (s s' : state) (b : B) :
  (m ≫= f) s = (Ok b, s') ->
  exists a s1, m s = (Ok a, s1) /\ f a s1 = (Ok b, s').
Proof.
  rewrite run_bind. destruct (m s) as [[a|e] s1]; [|discriminate].
  intros H. exists a, s1. auto.
Qed.

Lemma open_append_dir (fs : gmap string node) (p : string) (entries : list string) :
  fs !! p = Some (Dir entries) -> Fs.open_append fs p = Throw EISDIR.
Proof.
  intros H. unfold Fs.open_append, Fs.realpath. rewrite realpath_go_end by congruence.
  rewrite H. reflexivity.
Qed.

Section Lifecycle.
Variable sha256 : string -> string.
Variable postcssDiscardDuplicates : string -> result string.
Variables outputFile outputDir : string.
Variable options : MergeCssPluginOptions.

(** X8.  The handles of the two buffers.  In every state, when
    [setupInitialFiles] returns both handles are held, and when it throws
    both have been released before the error is passed on; [dispose]
    releases both and touches neither the tree nor the remembered state of
    the change detector. *)
Theorem handles_held_or_released (s : state) :
  match setupInitialFiles outputFile outputDir s with
  | (Ok _, s') => handles s' = (true, true)
  | (Throw _, s') => handles s' = (false, false)
  end
  /\ handles (snd (dispose s)) = (false, false)
  /\ fs (snd (dispose s)) = fs s
  /\ trace (snd (dispose s)) = trace s
  /\ detector (snd (dispose s)) = detector s.
Proof.
  split; [|repeat split].
  unfold setupInitialFiles. rewrite run_try_catch.
  match goal with |- context [match ?m s with _ => _ end] => destruct (m s) as [[[]|e] s'] eqn:Hbody end;
    [|reflexivity].
  apply ok_bind in Hbody as (tempOpen & s1 & Hgets & Hbody).
  injection Hgets as <- <-.
  apply ok_bind in Hbody as ([] & s2 & Htemp & Hbody).
  assert (Hs2 : tempFileHandle s2 = true /\ backupFileHandle s2 = backupFileHandle s).
  { destruct (tempFileHandle s) eqn:Eh.
    - injection Htemp as <-. auto.
    - apply ok_bind in Htemp as ([] & s1 & Hopen & Hset).
      injection Hset as <-. rewrite run_mutate in Hopen.
      destruct (Fs.open_append _ _); [|discriminate].
      injection Hopen as <-. auto. }
  destruct Hs2 as [Ht2 Hb2].
  apply ok_bind in Hbody as (backupOpen & s3 & Hgets & Hbody).
  injection Hgets as <- <-.
  apply ok_bind in Hbody as ([] & s4 & Hbackup & Hbody).
  assert (Hs4 : handles s4 = (true, true)).
  { unfold handles. destruct (backupFileHandle s2) eqn:Eh.
    - injection Hbackup as <-. rewrite Ht2, Eh. reflexivity.
    - apply ok_bind in Hbackup as ([] & s3 & Hopen & Hset).
      injection Hset as <-. rewrite run_mutate in Hopen.
      destruct (Fs.open_append _ _); [|discriminate].
      injection Hopen as <-. cbn. rewrite Ht2. reflexivity. }
  match type of Hbody with
  | ?m s4 = _ => assert (Hrest : holds m) by holds_tac
  end.
  specialize (Hrest s4). rewrite Hbody in Hrest. cbn [snd] in Hrest. congruence.
Qed.

(** X9.  No error leaves the plugin through [onSuccess], [onClear] or
    [atomicStyleUpdate]: in every state of the tree, sane or not, each of
    them returns. *)
Theorem public_calls_never_throw (s : state) (content : string) (force : bool) :
  (exists r s', onSuccess sha256 postcssDiscardDuplicates outputFile outputDir options s
                = (Ok r, s'))
  /\ (exists s', onClear outputFile outputDir s = (Ok tt, s'))
  /\ (exists b s', atomicStyleUpdate outputFile outputDir content force s = (Ok b, s')).
Proof.
  split; [|split].
  - unfold onSuccess. rewrite run_try_catch.
    match goal with |- context [match ?m s with _ => _ end] => destruct (m s) as [[r|e] s'] end;
      eauto.
  - unfold onClear. rewrite run_try_catch.
    match goal with |- context [match ?m s with _ => _ end] => destruct (m s) as [[[]|e] s'] end;
      eauto.
  - unfold atomicStyleUpdate. rewrite run_try_catch.
    match goal with |- context [match ?m s with _ => _ end] => destruct (m s) as [[b|e] s'] end;
      eauto.
Qed.

(** X10.  A directory at the path of the temp buffer: the first
    [open] of [setupInitialFiles] fails, the handles are released and the
    error is passed on; [onSuccess] reports it and has changed nothing in
    the tree. *)
Theorem refresh_fails_on_directory_buffer (s : state) (entries : list string) :
  fs s !! tempFile outputFile = Some (Dir entries) ->
  tempFileHandle s = false ->
  setupInitialFiles outputFile outputDir s = (Throw EISDIR, set_handles false false s)
  /\ onSuccess sha256 postcssDiscardDuplicates outputFile outputDir options s
     = (Ok (Failed EISDIR), set_handles false false s).
Proof.
  intros Hdir Hclosed.
  assert (Hsetup : setupInitialFiles outputFile outputDir s
                   = (Throw EISDIR, set_handles false false s)).
  { unfold setupInitialFiles, cleanup.
    rewrite run_try_catch, run_bind, run_gets, Hclosed.
    rewrite !run_bind, run_mutate, (open_append_dir _ _ _ Hdir). reflexivity. }
  split; [exact Hsetup|].
  unfold onSuccess. rewrite run_try_catch, run_bind, Hsetup. reflexivity.
Qed.

End Lifecycle.

(** ** The setup, the swap and the rollback *)

Lemma writeFile_dir (fs : gmap string node) (p c : string) (entries : list string) :
  fs !! p = Some (Dir entries) -> Fs.writeFile fs p c = Throw EISDIR.
Proof.
  intros H. unfold Fs.writeFile, Fs.realpath. rewrite realpath_go_end by congruence.
  rewrite H. reflexivity.
Qed.

Section Buffers.
Variables outputFile outputDir : string.

Abbreviation temp := (tempFile outputFile).
Abbreviation backup := (backupFile outputFile).
Abbreviation main := (mainStylesLink outputDir).
Abbreviation shadow := (shadowLink outputDir).
Abbreviation setup := (setupInitialFiles outputFile outputDir).
Abbreviation publish := (atomicStyleUpdate outputFile outputDir).

Lemma setup_events_confined (fs : gmap string node) (p : string) :
  p ∉ [temp; backup; main; shadow] ->
  replay (setup_events outputFile outputDir fs) fs !! p = fs !! p.
Proof.
  intros Hp. rewrite !elem_of_cons, elem_of_nil in Hp.
  assert (p <> temp) by tauto. assert (p <> backup) by tauto.
  assert (p <> main) by tauto. assert (p <> shadow) by tauto.
  unfold setup_events.
  destruct (is_file (fs !! temp)), (is_file (fs !! backup)),
           (fs !! shadow), (fs !! main);
    cbn [app replay foldl apply_event]; lk; reflexivity.
Qed.


(** X12.  The two buffers take turns.  When the shadow link is in place,
    the directories of the buffers and of the links are there and the
    content is not skipped, the publication returns true; afterwards
    both buffers hold the new content, the shadow link points at the backup
    buffer if it pointed elsewhere and at the temp buffer if it pointed at
    the backup buffer, hence never where it pointed before, and nothing but
    the two buffers and the shadow link has changed.  The buffers are again
    regular files, so the next publication swaps back. *)
Theorem publication_alternates_buffers (s : state) (t content : string) (force : bool) :
  fs s !! shadow = Some (Symlink t) ->
  buffers_plain outputFile (fs s) = true ->
  housed outputFile outputDir (fs s) = true ->
  blank content && negb force = false ->
  let t' := if bool_decide (t = backup) then temp else backup in
  exists s1 : state,
    publish content force s = (Ok true, s1)
    /\ fs s1 !! shadow = Some (Symlink t')
    /\ t' <> t
    /\ fs s1 !! temp = Some (File content)
    /\ fs s1 !! backup = Some (File content)
    /\ buffers_plain outputFile (fs s1) = true
    /\ (forall p : string, p ∉ [temp; backup; shadow] -> fs s1 !! p = fs s !! p).
Proof.
  intros Hsh Hbuf _ Hgo t'. distinct_paths outputFile outputDir.
  exists (perform (swap_events outputFile outputDir t content) s).
  split; [apply publish_swap; assumption|].
  subst t'. unfold swap_events, buffers_plain.
  case_bool_decide as Ht; cbn [fs perform replay foldl apply_event]; lk.
  all: repeat split; try reflexivity; try congruence.
  all: intros p Hp; rewrite !elem_of_cons, elem_of_nil in Hp.
  all: assert (p <> temp) by tauto; assert (p <> backup) by tauto;
       assert (p <> shadow) by tauto; lk; reflexivity.
Qed.

(** X13.  The rollback.  When the second write of the swap fails, here
    because a directory sits at the path of the buffer that is written last,
    the shadow link is put back to where it pointed, and the publication
    returns false.  The first buffer keeps the new content; every other path
    is as before the call. *)
Theorem failed_swap_is_rolled_back (s : state) (t content : string) (force : bool) :
  let activeFile := if bool_decide (t = backup) then temp else backup in
  let inactiveFile := if bool_decide (t = backup) then backup else temp in
  fs s !! shadow = Some (Symlink t) ->
  plain (fs s !! activeFile) = true ->
  is_dir (fs s !! inactiveFile) = true ->
  blank content && negb force = false ->
  exists s1 : state,
    publish content force s = (Ok false, s1)
    /\ new_events s s1
       = [EvTruncate activeFile; EvWritten activeFile content;
          EvUnlink shadow; EvSymlink activeFile shadow;
          EvUnlink shadow; EvSymlink t shadow]
    /\ fs s1 !! shadow = Some (Symlink t)
    /\ fs s1 !! activeFile = Some (File content)
    /\ (forall p : string, p <> activeFile -> fs s1 !! p = fs s !! p).
Proof.
  intros activeFile inactiveFile Hsh Hactive Hinactive Hgo.
  distinct_paths outputFile outputDir.
  exists (perform [EvTruncate activeFile; EvWritten activeFile content;
                   EvUnlink shadow; EvSymlink activeFile shadow;
                   EvUnlink shadow; EvSymlink t shadow] s).
  rewrite new_events_perform.
  subst activeFile inactiveFile.
  destruct (fs s !! (if bool_decide (t = backup) then backup else temp))
    as [[| |entries]|] eqn:Edir; try discriminate.
  unfold atomicStyleUpdate. rewrite run_try_catch, Hgo.
  case_bool_decide as Ht; [subst t|].
  - destruct (fs s !! temp) as [[c1| |]|] eqn:Etemp; try discriminate.
    all: (split; [run; erewrite writeFile_dir by (lk; reflexivity); run;
                  rewrite !perform_perform; reflexivity|]).
    all: cbn [fs perform replay foldl apply_event]; lk.
    all: repeat split; try reflexivity.
    all: intros p Hp; destruct (decide (p = shadow)) as [->|Hps]; lk; reflexivity.
  - destruct (fs s !! backup) as [[c1| |]|] eqn:Ebackup; try discriminate.
    all: (split; [run; erewrite writeFile_dir by (lk; reflexivity); run;
                  rewrite !perform_perform; reflexivity|]).
    all: cbn [fs perform replay foldl apply_event]; lk.
    all: repeat split; try reflexivity.
    all: intros p Hp; destruct (decide (p = shadow)) as [->|Hps]; lk; reflexivity.
Qed.


(** X21.  A path that is taken.  When something that is not a link sits
    at the path of the shadow link (a regular file, a directory), while the
    directories of the buffers and of the links are there, the publication
    takes the path of a first publication, writes the content to
    the backup buffer, fails to create the shadow link and returns false.
    Nothing is rolled back and nothing else is touched: what occupies the
    path stays, and so does the main link. *)
Theorem publication_blocked_by_occupied_path (s : state) (occupant : node)
    (content : string) (force : bool) :
  fs s !! shadow = Some occupant ->
  (forall t : string, occupant <> Symlink t) ->
  buffers_plain outputFile (fs s) = true ->
  housed outputFile outputDir (fs s) = true ->
  blank content && negb force = false ->
  exists s1 : state,
    publish content force s = (Ok false, s1)
    /\ new_events s s1 = [EvTruncate backup; EvWritten backup content]
    /\ fs s1 !! backup = Some (File content)
    /\ (forall p : string, p <> backup -> fs s1 !! p = fs s !! p).
Proof.
  intros Hsh Hocc Hbuf _ Hgo.
  exists (perform [EvTruncate backup; EvWritten backup content] s).
  rewrite new_events_perform. split; [|split; [reflexivity|split]].
  - rewrite (publish_first _ _ s content force) by (congruence || assumption).
    unfold first_events. rewrite Hsh. cbn [app].
    rewrite bool_decide_eq_false_2 by (intros [? _]; congruence). reflexivity.
  - cbn [fs perform replay foldl apply_event]. lk. reflexivity.
  - intros p Hp. cbn [fs perform replay foldl apply_event]. lk. reflexivity.
Qed.

End Buffers.

(** ** What a refresh leaves behind *)

Section Outcomes.
Variable sha256 : string -> string.
Variable postcssDiscardDuplicates : string -> result string.
Variables outputFile outputDir : string.
Variable options : MergeCssPluginOptions.

Abbreviation temp := (tempFile outputFile).
Abbreviation backup := (backupFile outputFile).
Abbreviation main := (mainStylesLink outputDir).
Abbreviation shadow := (shadowLink outputDir).
Abbreviation exclude := [absoluteOutputFile outputFile; tempFile outputFile; backupFile outputFile].
Abbreviation refresh := (onSuccess sha256 postcssDiscardDuplicates outputFile outputDir options).
Abbreviation scan fs := (getAllFiles PATH_DEPTH fs outputDir module_css exclude).
Abbreviation digest contents := (sha256 (foldl String.append "" (map sha256 contents))).

Lemma refresh_ready (s : state) :
  sane outputFile outputDir s = true ->
  ready outputFile outputDir (fs (snd (refresh s))) = true
  /\ handles (snd (refresh s)) = (true, true).
Proof.
  intros Hsane. rewrite (onSuccess_sane _ _ _ _ _ s Hsane). cbv zeta.
  pose proof (setup_ready _ _ s Hsane) as Hready.
  repeat match goal with
         | |- context [match ?x with _ => _ end] => destruct x
         end;
    cbn [snd fs perform set_lastKnown set_handles handles tempFileHandle backupFileHandle];
    (split; [first [exact Hready | apply swap_ready, Hready]|reflexivity]).
Qed.

Lemma clear_sane (s : state) :
  sane outputFile outputDir s = true ->
  sane outputFile outputDir (snd (onClear outputFile outputDir s)) = true.
Proof.
  destruct s as [fs0 tr lf lh h1 h2]. intros Hsane.
  assert (Hbuf : buffers_plain outputFile fs0 = true).
  { unfold sane in Hsane. rewrite !andb_true_iff in Hsane. tauto. }
  distinct_paths outputFile outputDir.
  unfold onClear. rewrite run_try_catch, run_bind.
  destruct (fs0 !! shadow) as [[|t|]|] eqn:Esh.
  - exfalso. unfold sane, links_ok in Hsane. cbn [fs] in Hsane. rewrite Esh in Hsane.
    rewrite !andb_true_iff in Hsane. destruct Hsane as [[[_ [_ H']] _] _]. discriminate.
  - rewrite (publish_swap _ _ (mkState fs0 tr lf lh h1 h2) t "" true Esh Hbuf) by reflexivity.
    rewrite run_ret. cbn [snd].
    sane_cases Hsane fs0 outputFile outputDir.
    all: try discriminate.
    all: injection Esh as <-.
    all: unfold sane, buffers_plain, links_ok, dirs_exist, handles_ok, swap_events.
    all: case_bool_decide.
    all: cbn [fs perform replay foldl apply_event tempFileHandle backupFileHandle]; lk.
    all: cbn; rewrite ?bool_decide_eq_true_2 by reflexivity; lk;
         destruct h1, h2; reflexivity.
  - exfalso. unfold sane, links_ok in Hsane. cbn [fs] in Hsane. rewrite Esh in Hsane.
    rewrite !andb_true_iff in Hsane. destruct Hsane as [[[_ [_ H']] _] _]. discriminate.
  - rewrite (publish_first _ _ (mkState fs0 tr lf lh h1 h2) "" true)
      by (cbn [fs]; congruence || assumption || reflexivity).
    cbn [fs]. rewrite run_ret. cbn [snd].
    sane_cases Hsane fs0 outputFile outputDir.
    all: try discriminate.
    all: unfold sane, buffers_plain, links_ok, dirs_exist, handles_ok, first_events.
    all: cbn [fs perform replay foldl apply_event tempFileHandle backupFileHandle app]; lk.
    all: cbn [fs perform replay foldl apply_event tempFileHandle backupFileHandle app]; lk.
    all: cbn; rewrite ?bool_decide_eq_true_2 by reflexivity; lk;
         destruct h1, h2; try discriminate; reflexivity.
Qed.

Lemma swap_events_confined (fs : gmap string node) (t c p : string) :
  p ∉ [temp; backup; main; shadow] ->
  replay (swap_events outputFile outputDir t c) fs !! p = fs !! p.
Proof.
  intros Hp. rewrite !elem_of_cons, elem_of_nil in Hp.
  assert (p <> temp) by tauto. assert (p <> backup) by tauto.
  assert (p <> shadow) by tauto.
  unfold swap_events. case_bool_decide; cbn [replay foldl apply_event]; lk; reflexivity.
Qed.

Lemma first_events_confined (fs : gmap string node) (c p : string) :
  p ∉ [temp; backup; main; shadow] ->
  replay (first_events outputFile outputDir fs c) fs !! p = fs !! p.
Proof.
  intros Hp. rewrite !elem_of_cons, elem_of_nil in Hp.
  assert (p <> backup) by tauto. assert (p <> main) by tauto.
  assert (p <> shadow) by tauto.
  unfold first_events.
  destruct (fs !! shadow), (fs !! main); cbn [app replay foldl apply_event]; lk; reflexivity.
Qed.

Lemma refresh_confined (s : state) (p : string) :
  sane outputFile outputDir s = true ->
  p ∉ [temp; backup; main; shadow] ->
  fs (snd (refresh s)) !! p = fs s !! p.
Proof.
  intros Hsane Hp. rewrite (onSuccess_sane _ _ _ _ _ s Hsane). cbv zeta.
  repeat match goal with
         | |- context [match ?x with _ => _ end] => destruct x
         end;
    cbn [snd fs perform set_lastKnown set_handles];
    rewrite ?swap_events_confined by exact Hp;
    apply setup_events_confined, Hp.
Qed.

Lemma clear_confined (s : state) (p : string) :
  sane outputFile outputDir s = true ->
  p ∉ [temp; backup; main; shadow] ->
  fs (snd (onClear outputFile outputDir s)) !! p = fs s !! p.
Proof.
  intros Hsane Hp.
  assert (Hbuf : buffers_plain outputFile (fs s) = true).
  { unfold sane in Hsane. rewrite !andb_true_iff in Hsane. tauto. }
  unfold onClear. rewrite run_try_catch, run_bind.
  destruct (fs s !! shadow) as [[|t|]|] eqn:Esh.
  - rewrite (publish_first _ _ s "" true) by (congruence || assumption || reflexivity).
    rewrite run_ret. cbn [snd fs perform]. apply first_events_confined, Hp.
  - rewrite (publish_swap _ _ s t "" true Esh Hbuf) by reflexivity.
    rewrite run_ret. cbn [snd fs perform]. apply swap_events_confined, Hp.
  - rewrite (publish_first _ _ s "" true) by (congruence || assumption || reflexivity).
    rewrite run_ret. cbn [snd fs perform]. apply first_events_confined, Hp.
  - rewrite (publish_first _ _ s "" true) by (congruence || assumption || reflexivity).
    rewrite run_ret. cbn [snd fs perform]. apply first_events_confined, Hp.
Qed.

Lemma housed_kept (s : state) (fs' : gmap string node) :
  sane outputFile outputDir s = true ->
  (forall p : string, p ∉ [temp; backup; main; shadow] -> fs' !! p = fs s !! p) ->
  housed outputFile outputDir (fs s) = true ->
  housed outputFile outputDir fs' = true.
Proof.
  intros Hsane Hsame.
  assert (Hdir : forall d : string, is_dir (fs s !! d) = true -> is_dir (fs' !! d) = true).
  { intros d Hd. rewrite Hsame; [exact Hd|].
    unfold sane, buffers_plain, links_ok in Hsane. rewrite !andb_true_iff in Hsane.
    destruct Hsane as [[[[Htemp Hbackup] [Hmain Hshadow]] _] _].
    rewrite !elem_of_cons, elem_of_nil.
    intros [->|[->|[->|[->|[]]]]].
    - destruct (fs s !! temp) as [[]|]; discriminate.
    - destruct (fs s !! backup) as [[]|]; discriminate.
    - destruct (fs s !! main) as [[]|]; discriminate.
    - destruct (fs s !! shadow) as [[]|]; discriminate. }
  unfold housed. rewrite !andb_true_iff. intros [[[H1 H2] H3] H4]. auto.
Qed.

(** X15.  The sane publication states, with the directories of the
    buffers and of the links in place, are closed under the plugin's
    operations: after [onSuccess], whatever it reports, after [onClear] and
    after [dispose] the state is sane again and the directories are still
    there.  After [onSuccess] it is even ready: both buffers exist, both
    handles are held, and the main link leads through the shadow link to a
    regular file. *)
Theorem sane_states_are_closed (s : state) :
  sane outputFile outputDir s = true ->
  housed outputFile outputDir (fs s) = true ->
  (sane outputFile outputDir (snd (refresh s)) = true
   /\ housed outputFile outputDir (fs (snd (refresh s))) = true
   /\ ready outputFile outputDir (fs (snd (refresh s))) = true
   /\ handles (snd (refresh s)) = (true, true))
  /\ (sane outputFile outputDir (snd (onClear outputFile outputDir s)) = true
      /\ housed outputFile outputDir (fs (snd (onClear outputFile outputDir s))) = true)
  /\ (sane outputFile outputDir (snd (dispose s)) = true
      /\ housed outputFile outputDir (fs (snd (dispose s))) = true).
Proof.
  intros Hsane Hhoused. destruct (refresh_ready s Hsane) as [Hready Hheld].
  split; [|split].
  - split; [apply ready_sane, Hready|].
    split; [|split; [exact Hready|exact Hheld]].
    apply (housed_kept s); [exact Hsane| |exact Hhoused].
    intros p Hp. apply refresh_confined; assumption.
  - split; [apply clear_sane, Hsane|].
    apply (housed_kept s); [exact Hsane| |exact Hhoused].
    intros p Hp. apply clear_confined; assumption.
  - split; [|exact Hhoused].
    unfold sane in *. rewrite !andb_true_iff in *.
    destruct Hsane as [[[Hb Hl] Hd] _]. repeat split; assumption.
Qed.

(** X16.  A refresh never takes the artifact away.  From a sane state in
    which some content is published, after [onSuccess] the main link leads
    either to that same content, or, when the call reports an update, to the
    text the collaborator returned, which is not blank. *)
Theorem refresh_keeps_or_replaces_artifact (s : state) (c : string) :
  sane outputFile outputDir s = true ->
  published main (fs s) = Ok c ->
  published main (fs (snd (refresh s))) = Ok c
  \/ (exists css : string,
        fst (refresh s) = Ok Updated
        /\ published main (fs (snd (refresh s))) = Ok css
        /\ blank css = false
        /\ exists merged : string, postcssDiscardDuplicates merged = Ok css).
Proof.
  intros Hsane Hpub. rewrite (onSuccess_sane _ _ _ _ _ s Hsane). cbv zeta.
  set (s1 := set_handles true true (perform (setup_events outputFile outputDir (fs s)) s)).
  assert (Hready : ready outputFile outputDir (fs s1) = true)
    by exact (setup_ready _ _ s Hsane).
  assert (Hpub1 : published main (fs s1) = Ok c)
    by exact (setup_published _ _ s c Hsane Hpub).
  destruct (ready_current _ _ (fs s1) Hready) as (Hsh & Ht & Hcur & Hmain & Hbuf).
  assert (Hc : content_at (fs s1) (current_target outputFile outputDir (fs s1)) = c)
    by congruence.
  rewrite Hc.
  destruct (scan (fs s1)) as [files|e]; [|left; exact Hpub1].
  destruct (bool_decide (0 < length files)).
  - destruct (read_all (fs s1) files) as [cs|e]; [|left; exact Hpub1].
    destruct (hasChanged _ _ _ _).
    + destruct (postcssDiscardDuplicates _) as [css|e] eqn:Hcss; [|left; exact Hpub1].
      destruct (blank css) eqn:Hblank; [left; exact Hpub1|].
      right. exists css. split; [reflexivity|].
      split; [cbn [snd fs set_lastKnown perform]; apply swap_published, Hmain|].
      split; [exact Hblank|]. eexists. exact Hcss.
    + left. destruct (verbose options && negb (blank c)); [|exact Hpub1].
      cbn [snd fs perform]. apply swap_published, Hmain.
  - left. destruct (negb (blank c)); [|exact Hpub1].
    cbn [snd fs perform]. apply swap_published, Hmain.
Qed.






End Outcomes.

(** ** The further theorems at work on the samples *)

Lemma getAllFiles_returns_the_matching_files_witness :
  (forall file : string,
      file ∈ ["/out/a.module.css"; "/out/sub/b.module.css"]
      <-> found sample_tree module_css [] "/out" file)
  /\ (forall depth' : nat, 3 <= depth' ->
        getAllFiles depth' sample_tree "/out" module_css []
        = Ok ["/out/a.module.css"; "/out/sub/b.module.css"]).
Proof.
  apply (getAllFiles_returns_the_matching_files 3 sample_tree "/out" module_css []
           ["/out/a.module.css"; "/out/sub/b.module.css"]).
  vm_compute. reflexivity.
Defined.

Lemma getAllFiles_reads_shapes_only_witness :
  getAllFiles PATH_DEPTH sample_tree "/out" module_css []
  = getAllFiles PATH_DEPTH edited_tree "/out" module_css [].
Proof.
  apply (getAllFiles_reads_shapes_only PATH_DEPTH sample_tree edited_tree "/out" module_css []).
  - intros p. right. unfold edited_tree.
    destruct (decide (p = "/out/a.module.css")) as [->|Hp].
    + rewrite lookup_insert_eq. vm_compute. exact I.
    + rewrite lookup_insert_ne by (apply not_eq_sym; exact Hp).
      destruct (sample_tree !! p) as [[]|]; try exact I. reflexivity.
  - vm_compute. reflexivity.
Defined.

Lemma plugin_paths_are_distinct_witness :
  NoDup [tempFile "/out/merged.css"; backupFile "/out/merged.css";
         mainStylesLink "/out"; shadowLink "/out"]
  /\ Forall (fun p => normal_path p = true)
            [tempFile "/out/merged.css"; backupFile "/out/merged.css";
             mainStylesLink "/out"; shadowLink "/out"]
  /\ Path.dirname (tempFile "/out/merged.css") = Path.dirname "/out/merged.css"
  /\ Path.dirname (backupFile "/out/merged.css") = Path.dirname "/out/merged.css"
  /\ Path.dirname (mainStylesLink "/out") = "/out"
  /\ shadowLink "/out" = Path.join "/out" ".styles.shadow.css"
  /\ Path.dirname (shadowLink "/out") = "/out".
Proof.
  apply (plugin_paths_are_distinct "/out/merged.css" "/out"); vm_compute; reflexivity.
Defined.

Lemma scan_never_returns_own_files_witness :
  module_css "/out/a.module.css" = true
  /\ is_file (occupied_tree !! "/out/a.module.css") = true
  /\ "/out/a.module.css" ∉ [absoluteOutputFile "/out/merged.module.css";
                            tempFile "/out/merged.module.css";
                            backupFile "/out/merged.module.css";
                            mainStylesLink "/out"; shadowLink "/out"].
Proof.
  apply (scan_never_returns_own_files "/out/merged.module.css" "/out"
           PATH_DEPTH occupied_tree ["/out/a.module.css"]).
  - vm_compute. reflexivity.
  - vm_compute. reflexivity.
  - vm_compute. reflexivity.
  - vm_compute. reflexivity.
  - left.
Defined.

Lemma combineContents_single_batch_witness :
  combineContents ["/out/a.module.css"; "/out/sub/b.module.css"] (initial_state sample_tree)
  = (Ok (join_lines [".a{}"; ".b{}"]), initial_state sample_tree).
Proof.
  apply (combineContents_single_batch ["/out/a.module.css"; "/out/sub/b.module.css"]
           [".a{}"; ".b{}"] (initial_state sample_tree)).
  - unfold batchSize. simpl. lia.
  - vm_compute. reflexivity.
Defined.

Lemma refresh_fails_on_directory_buffer_witness :
  setupInitialFiles "/out/merged.css" "/out" (initial_state dir_buffer_tree)
  = (Throw EISDIR, set_handles false false (initial_state dir_buffer_tree))
  /\ sample_refresh default_options (initial_state dir_buffer_tree)
     = (Ok (Failed EISDIR), set_handles false false (initial_state dir_buffer_tree)).
Proof.
  apply (refresh_fails_on_directory_buffer sample_sha256 sample_postcss
           "/out/merged.css" "/out" default_options (initial_state dir_buffer_tree) []);
    vm_compute; reflexivity.
Defined.


Lemma publication_alternates_buffers_witness :
  exists s1 : state,
    atomicStyleUpdate "/out/merged.css" "/out" ".new{}" false sample_refreshed = (Ok true, s1)
    /\ fs s1 !! shadowLink "/out" = Some (Symlink (backupFile "/out/merged.css"))
    /\ backupFile "/out/merged.css" <> tempFile "/out/merged.css"
    /\ fs s1 !! tempFile "/out/merged.css" = Some (File ".new{}")
    /\ fs s1 !! backupFile "/out/merged.css" = Some (File ".new{}")
    /\ buffers_plain "/out/merged.css" (fs s1) = true
    /\ (forall p : string,
          p ∉ [tempFile "/out/merged.css"; backupFile "/out/merged.css"; shadowLink "/out"] ->
          fs s1 !! p = fs sample_refreshed !! p).
Proof.
  apply (publication_alternates_buffers "/out/merged.css" "/out" sample_refreshed
           (tempFile "/out/merged.css") ".new{}" false);
    vm_compute; reflexivity.
Defined.

Lemma failed_swap_is_rolled_back_witness :
  exists s1 : state,
    atomicStyleUpdate "/out/merged.css" "/out" ".new{}" false (initial_state rollback_tree)
    = (Ok false, s1)
    /\ new_events (initial_state rollback_tree) s1
       = [EvTruncate (backupFile "/out/merged.css");
          EvWritten (backupFile "/out/merged.css") ".new{}";
          EvUnlink (shadowLink "/out");
          EvSymlink (backupFile "/out/merged.css") (shadowLink "/out");
          EvUnlink (shadowLink "/out");
          EvSymlink "/out/old.css" (shadowLink "/out")]
    /\ fs s1 !! shadowLink "/out" = Some (Symlink "/out/old.css")
    /\ fs s1 !! backupFile "/out/merged.css" = Some (File ".new{}")
    /\ (forall p : string,
          p <> backupFile "/out/merged.css" ->
          fs s1 !! p = fs (initial_state rollback_tree) !! p).
Proof.
  apply (failed_swap_is_rolled_back "/out/merged.css" "/out" (initial_state rollback_tree)
           "/out/old.css" ".new{}" false);
    vm_compute; reflexivity.
Defined.


Lemma sane_states_are_closed_witness :
  (sane "/out/merged.css" "/out"
     (snd (sample_refresh default_options (initial_state sample_tree))) = true
   /\ housed "/out/merged.css" "/out"
        (fs (snd (sample_refresh default_options (initial_state sample_tree)))) = true
   /\ ready "/out/merged.css" "/out"
        (fs (snd (sample_refresh default_options (initial_state sample_tree)))) = true
   /\ handles (snd (sample_refresh default_options (initial_state sample_tree))) = (true, true))
  /\ (sane "/out/merged.css" "/out"
        (snd (onClear "/out/merged.css" "/out" (initial_state sample_tree))) = true
      /\ housed "/out/merged.css" "/out"
           (fs (snd (onClear "/out/merged.css" "/out" (initial_state sample_tree)))) = true)
  /\ (sane "/out/merged.css" "/out" (snd (dispose (initial_state sample_tree))) = true
      /\ housed "/out/merged.css" "/out" (fs (snd (dispose (initial_state sample_tree)))) = true).
Proof.
  apply (sane_states_are_closed sample_sha256 sample_postcss "/out/merged.css" "/out"
           default_options (initial_state sample_tree));
    vm_compute; reflexivity.
Defined.

Lemma refresh_keeps_or_replaces_artifact_witness :
  published (mainStylesLink "/out")
    (fs (snd (sample_refresh default_options (initial_state occupied_tree)))) = Ok ".a{}"
  \/ (exists css : string,
        fst (sample_refresh default_options (initial_state occupied_tree)) = Ok Updated
        /\ published (mainStylesLink "/out")
             (fs (snd (sample_refresh default_options (initial_state occupied_tree)))) = Ok css
        /\ blank css = false
        /\ exists merged : string, sample_postcss merged = Ok css).
Proof.
  apply (refresh_keeps_or_replaces_artifact sample_sha256 sample_postcss
           "/out/merged.css" "/out" default_options (initial_state occupied_tree) ".a{}");
    vm_compute; reflexivity.
Defined.





Lemma publication_blocked_by_occupied_path_witness :
  exists s1 : state,
    atomicStyleUpdate "/out/merged.css" "/out" ".new{}" false (initial_state blocked_tree)
    = (Ok false, s1)
    /\ new_events (initial_state blocked_tree) s1
       = [EvTruncate (backupFile "/out/merged.css");
          EvWritten (backupFile "/out/merged.css") ".new{}"]
    /\ fs s1 !! backupFile "/out/merged.css" = Some (File ".new{}")
    /\ (forall p : string,
          p <> backupFile "/out/merged.css" ->
          fs s1 !! p = fs (initial_state blocked_tree) !! p).
Proof.
  apply (publication_blocked_by_occupied_path "/out/merged.css" "/out"
           (initial_state blocked_tree) (File "This is a file, not a symlink") ".new{}" false).
  - vm_compute. reflexivity.
  - intros t. discriminate.
  - vm_compute. reflexivity.
  - vm_compute. reflexivity.
  - vm_compute. reflexivity.
Defined.
